(** * ClusterPlot: zoom-driven exploration of hierarchically clustered points

    A shallow embedding of the [ClusterPlot] React component
    (src/src/index.tsx) and of the part of the JavaScript runtime it relies on.

    - Module [JS]: numbers (IEEE 754 binary64, Rocq's primitive floats),
      [Math.min], [Math.max], [Math.floor], values, strict equality, array
      indexing, [Number::toString], and a plain object [{}] used as a table.
    - Module [ClusterPlot]: props, state, the two event handlers, the density
      filter and the marker styling, in the order of the source.
    - Module [Spec]: the vocabulary of the specification; modules [Binary64]
      and [Samples]: auxiliary definitions and sample inputs.
    - The remaining sections state and prove the properties of the component. *)

From Stdlib Require Import ZArith QArith Qround Floats String List Lia DecimalString.
From stdpp Require Import gmap strings list fin_maps.

(** ** The JavaScript runtime *)

Module JS.

(** A [number] is a binary64 float: NaN, the two infinities and the two
    zeros are values like any other. *)
Definition number := float.
Bind Scope float_scope with number.

Definition NaN : number := nan.
Definition isNaN (v : number) : bool := is_nan v.

Definition is_pos_zero (v : number) : bool :=
  match classify v with PZero => true | _ => false end.
Definition is_neg_zero (v : number) : bool :=
  match classify v with NZero => true | _ => false end.

(** [Math.max(...vs)] (ECMA-262, Math.max): the running maximum starts at
    -Infinity, a NaN argument makes the result NaN, and +0 counts as larger
    than -0. *)
Fixpoint Math_max_from (highest : number) (vs : list number) : number :=
  match vs with
  | [] => highest
  | v :: vs' =>
      if isNaN v then NaN
      else if is_pos_zero v && is_neg_zero highest then Math_max_from v vs'
      else if (highest <? v)%float then Math_max_from v vs'
      else Math_max_from highest vs'
  end.
Definition Math_max (vs : list number) : number := Math_max_from neg_infinity vs.

(** [Math.min(...vs)]: dual, starting at +Infinity; -0 counts as smaller
    than +0. *)
Fixpoint Math_min_from (lowest : number) (vs : list number) : number :=
  match vs with
  | [] => lowest
  | v :: vs' =>
      if isNaN v then NaN
      else if is_neg_zero v && is_pos_zero lowest then Math_min_from v vs'
      else if (v <? lowest)%float then Math_min_from v vs'
      else Math_min_from lowest vs'
  end.
Definition Math_min (vs : list number) : number := Math_min_from infinity vs.

(** [Math.floor v]: NaN, the infinities and the zeros are returned as they
    are; so is a finite number whose exponent is not negative (an integer).
    Otherwise [v] is [±m * 2^e] with [e < 0]: the integer part of [m * 2^e] is
    [q = m >> -e]. A positive [v] keeps the bits of [q] (the fraction bits of
    the mantissa are cleared); a negative [v] that is not an integer goes to
    [-(q + 1)]. *)
Definition Math_floor (v : number) : number :=
  match Prim2SF v with
  | S754_finite s m e =>
      if (0 <=? e)%Z then v
      else
        let k := (- e)%Z in
        let q := Z.shiftr (Zpos m) k in
        let integral := (Z.shiftl q k =? Zpos m)%Z in
        let magnitude := if s && negb integral then (q + 1)%Z else q in
        SF2Prim (binary_normalize prec emax (cond_Zopp s (Z.shiftl magnitude k)) e s)
  | _ => v
  end.

(** The mathematical integer a number denotes, when it denotes one. *)
Definition integer_value (v : number) : option Z :=
  match Prim2SF v with
  | S754_zero _ => Some 0%Z
  | S754_finite s m e =>
      if (0 <=? e)%Z then Some (cond_Zopp s (Zpos m * 2 ^ e))
      else if (Zpos m mod 2 ^ (- e) =? 0)%Z
           then Some (cond_Zopp s (Zpos m / 2 ^ (- e)))
           else None
  | _ => None
  end.

(** [arr[i]] for an array [arr] and a number [i]: the element when [i]
    denotes an integer within the bounds, [undefined] ([None]) otherwise
    (NaN, a fraction, a negative number, an index past the end). *)
Definition Array_get {A : Type} (arr : list A) (i : number) : option A :=
  match integer_value i with
  | Some z =>
      if ((0 <=? z) && (z <? Z.of_nat (length arr)))%Z then arr !! Z.to_nat z
      else None
  | None => None
  end.

(** The values the component handles: cluster identifiers are strings or
    numbers; a missing array element reads as [undefined]; the selection
    state starts as [null]. *)
Inductive value : Type :=
| Undefined
| Null
| Num (v : number)
| Str (s : string).

(** [a === b]. On numbers this is the IEEE comparison: NaN is not equal to
    itself and the two zeros are equal. *)
Definition strict_eq (a b : value) : bool :=
  match a, b with
  | Undefined, Undefined => true
  | Null, Null => true
  | Num v, Num w => (v =? w)%float
  | Str s, Str t => String.eqb s t
  | _, _ => false
  end.

(** [a != null]: false for [null] and for [undefined]. *)
Definition not_nullish (a : value) : bool :=
  match a with
  | Undefined | Null => false
  | _ => true
  end.

(** *** Number::toString (radix 10)

    ECMA-262: for a finite positive [v], take integers [n], [k], [s] with
    [k >= 1], [10^(k-1) <= s < 10^k], such that [s * 10^(n-k)] rounds to [v],
    with [k] as small as possible (and [s * 10^(n-k)] closest to [v]); then
    lay the [k] digits of [s] out according to [n]. *)

Definition decimal (z : Z) : string := NilZero.string_of_uint (N.to_uint (Z.to_N z)).

Fixpoint zeros (n : nat) : string :=
  match n with
  | O => EmptyString
  | S n' => ("0" ++ zeros n')%string
  end.

(** The real number [m * 2^e]. *)
Definition dyadic (m : positive) (e : Z) : Q := (inject_Z (Zpos m) * Qpower 2 e)%Q.

(** The decimals that round to the float [m * 2^e] are those between the
    midpoints with its two neighbours; the midpoints themselves round to it
    when [m] is even. Just above a power of two the lower neighbour is half
    as far (except for the smallest normal number, whose lower neighbour is
    subnormal). *)
Definition rounds_to (m : positive) (e : Z) (q : Q) : bool :=
  let v := dyadic m e in
  let up := Qpower 2 (e - 1)%Z in
  let down :=
    if (Pos.eqb m (2 ^ 52) && (-1074 <? e)%Z) then Qpower 2 (e - 2)%Z else Qpower 2 (e - 1)%Z in
  if Z.even (Zpos m)
  then Qle_bool (v - down)%Q q && Qle_bool q (v + up)%Q
  else negb (Qle_bool q (v - down)%Q) && negb (Qle_bool (v + up)%Q q).

(** The [n] with [10^(n-1) <= v < 10^n], searched upwards from [n]. *)
Fixpoint magnitude_from (fuel : nat) (n : Z) (v : Q) : Z :=
  match fuel with
  | O => n
  | S fuel' =>
      if negb (Qle_bool (Qpower 10 n) v) then n else magnitude_from fuel' (n + 1)%Z v
  end.
Definition magnitude (v : Q) : Z := magnitude_from 640 (-330)%Z v.

(** The shortest digit string: [(s, n)] for the least [k] in [k, k+fuel). *)
Fixpoint shortest_from (fuel : nat) (k : Z) (m : positive) (e : Z) (n : Z) : Z * Z :=
  let v := dyadic m e in
  let scale := Qpower 10 (n - k)%Z in
  let lo := Qfloor (v / scale)%Q in
  let hi := (lo + 1)%Z in
  let lo_ok := rounds_to m e (inject_Z lo * scale)%Q in
  let hi_ok := rounds_to m e (inject_Z hi * scale)%Q in
  let d_lo := (v - inject_Z lo * scale)%Q in
  let d_hi := (inject_Z hi * scale - v)%Q in
  let pick_lo :=
    lo_ok && (negb hi_ok || negb (Qle_bool d_hi d_lo) || (Qeq_bool d_lo d_hi && Z.even lo)) in
  if pick_lo then (lo, n)
  else if hi_ok then (if (hi =? 10 ^ k)%Z then (10 ^ (k - 1), n + 1) else (hi, n))%Z
  else
    match fuel with
    | O => (lo, n)
    | S fuel' => shortest_from fuel' (k + 1)%Z m e n
    end.

Definition exponent_suffix (n : Z) : string :=
  let e := (n - 1)%Z in
  ("e" ++ (if (e <? 0)%Z then "-" else "+") ++ decimal (Z.abs e))%string.

(** The layout of the digits of [s] for a decimal exponent [n]. *)
Definition layout (s n : Z) : string :=
  let digits := decimal s in
  let k := Z.of_nat (String.length digits) in
  if ((k <=? n) && (n <=? 21))%Z then (digits ++ zeros (Z.to_nat (n - k)))%string
  else if ((0 <? n) && (n <=? 21))%Z then
    (substring 0 (Z.to_nat n) digits ++ "."
       ++ substring (Z.to_nat n) (Z.to_nat (k - n)) digits)%string
  else if ((-6 <? n) && (n <=? 0))%Z then ("0." ++ zeros (Z.to_nat (- n)) ++ digits)%string
  else if (k =? 1)%Z then (digits ++ exponent_suffix n)%string
  else (substring 0 1 digits ++ "." ++ substring 1 (Z.to_nat (k - 1)) digits
          ++ exponent_suffix n)%string.

Definition Number_toString (v : number) : string :=
  match Prim2SF v with
  | S754_nan => "NaN"
  | S754_zero _ => "0"
  | S754_infinity s => if s then "-Infinity" else "Infinity"
  | S754_finite s m e =>
      let '(digits, n) := shortest_from 16 1 m e (magnitude (dyadic m e)) in
      ((if s then "-" else EmptyString) ++ layout digits n)%string
  end.

(** The property key a value denotes when it indexes an object:
    [ToPropertyKey], which is [ToString] on these values. *)
Definition ToPropertyKey (a : value) : string :=
  match a with
  | Undefined => "undefined"
  | Null => "null"
  | Num v => Number_toString v
  | Str s => s
  end.

(** *** A plain object used as a table of counts

    [const counts = {}] is an ordinary object: a key it does not own is
    looked up in [Object.prototype]. *)
Definition Object_prototype_keys : list string :=
  [ "constructor"; "hasOwnProperty"; "isPrototypeOf"; "propertyIsEnumerable";
    "toLocaleString"; "toString"; "valueOf"; "__proto__";
    "__defineGetter__"; "__defineSetter__"; "__lookupGetter__"; "__lookupSetter__" ]%string.

(** What the table can hold under a key: a count, or the string that
    results from adding 1 to a function or to a string. A count is at most the
    length of an array, far below 2^53, so that counting in binary64 is exact:
    counts are natural numbers. *)
Inductive entry : Type :=
| Count (n : nat)
| Text.

(** The result of reading [counts[key]]. *)
Inductive read : Type :=
| Absent                       (* undefined *)
| Own (v : entry)              (* an own property *)
| Inherited.                   (* a method or accessor of Object.prototype *)

Definition object_get (counts : gmap string entry) (key : string) : read :=
  match counts !! key with
  | Some v => Own v
  | None => if bool_decide (key ∈ Object_prototype_keys) then Inherited else Absent
  end.

(** [(r || 0) + 1]: [undefined] is falsy and gives 1; a count [n] gives
    [n + 1]; a function, an object or a non-empty string is truthy and [+]
    concatenates. *)
Definition or_zero_plus_one (r : read) : entry :=
  match r with
  | Absent => Count 1
  | Own (Count n) => Count (S n)
  | Own Text => Text
  | Inherited => Text
  end.

(** [counts[key] = v]: creates or updates the own property, except for
    ["__proto__"], whose setter ignores a value that is not an object. *)
Definition object_set (counts : gmap string entry) (key : string) (v : entry)
  : gmap string entry :=
  if String.eqb key "__proto__" then counts else <[key := v]> counts.

(** [r >= threshold]: a count compares as a number; anything else converts
    to NaN and the comparison is false. *)
Definition at_least (r : read) (threshold : nat) : bool :=
  match r with
  | Own (Count n) => (threshold <=? n)%nat
  | _ => false
  end.

End JS.

(** ** The component *)

Module ClusterPlot.
Import JS.

(** One element of [embeddings]: [{ x, y, clusters }], with one cluster
    identifier (a string or a number) per hierarchy level. *)
Inductive cluster_id : Type :=
| IdNum (v : number)
| IdStr (s : string).

Definition id_value (c : cluster_id) : value :=
  match c with
  | IdNum v => Num v
  | IdStr s => Str s
  end.

Record Point : Type := { x : number; y : number; clusters : list cluster_id }.

(** [ClusterPlotType]; the destructuring defaults are [maxLevel = 10] and
    [sliderMax = 10]. *)
Record Props : Type := {
  embeddings : list Point;
  maxLevel : number;
  sliderMax : number
}.

Definition with_defaults (embeddings : list Point) : Props :=
  {| embeddings := embeddings; maxLevel := 10%float; sliderMax := 10%float |}.

(** The three [useState] cells. [densityThreshold] is the value of an
    [<input type="range" min=0>] with the default step 1: a natural number. *)
Record State : Type := {
  currentLevel : number;
  densityThreshold : nat;
  selectedCluster : value
}.

Definition initial : State :=
  {| currentLevel := 0%float; densityThreshold := 0; selectedCluster := Null |}.

Definition setCurrentLevel (level : number) (st : State) : State :=
  {| currentLevel := level;
     densityThreshold := densityThreshold st;
     selectedCluster := selectedCluster st |}.

Definition setDensityThreshold (threshold : nat) (st : State) : State :=
  {| currentLevel := currentLevel st;
     densityThreshold := threshold;
     selectedCluster := selectedCluster st |}.

Definition setSelectedCluster (selected : value) (st : State) : State :=
  {| currentLevel := currentLevel st;
     densityThreshold := densityThreshold st;
     selectedCluster := selected |}.

(** [[minX, maxX]] and [totalRange = maxX - minX] (lines 44-48). *)
Definition x_extent (embeddings : list Point) : number * number :=
  let xs := map x embeddings in
  (Math_min xs, Math_max xs).

Definition totalRange (embeddings : list Point) : number :=
  let '(minX, maxX) := x_extent embeddings in
  (maxX - minX)%float.

(** A relayout event; a key that the event does not carry reads as
    [undefined] ([None]). *)
Record PlotRelayoutEvent : Type := {
  xaxis_range_0 : option number;
  xaxis_range_1 : option number
}.

Definition relativeZoom (totalRange x0 x1 : number) : number :=
  let currentRange := (x1 - x0)%float in
  Math_min [Math_max [((totalRange - currentRange) / totalRange)%float; 0%float]; 1%float].

(** [handleRelayout] (lines 51-60). *)
Definition handleRelayout (props : Props) (event : PlotRelayoutEvent) (st : State) : State :=
  match xaxis_range_0 event, xaxis_range_1 event with
  | Some x0, Some x1 =>
      let level :=
        Math_floor (relativeZoom (totalRange (embeddings props)) x0 x1 * maxLevel props)%float in
      setCurrentLevel level st
  | _, _ => st
  end.

(** [pt.clusters[level]]. *)
Definition cluster_at (pt : Point) (level : number) : value :=
  match Array_get (clusters pt) level with
  | Some c => id_value c
  | None => Undefined
  end.

(** The [forEach] of lines 64-68: the table of counts per cluster key. *)
Definition count_step (level : number) (counts : gmap string entry) (pt : Point)
  : gmap string entry :=
  let cid := ToPropertyKey (cluster_at pt level) in
  object_set counts cid (or_zero_plus_one (object_get counts cid)).

Definition cluster_counts (embeddings : list Point) (level : number) : gmap string entry :=
  foldl (count_step level) ∅ embeddings.

(** [filteredData] (lines 63-70). *)
Definition filteredData (embeddings : list Point) (level : number) (threshold : nat)
  : list Point :=
  let counts := cluster_counts embeddings level in
  List.filter
    (fun pt => at_least (object_get counts (ToPropertyKey (cluster_at pt level))) threshold)
    embeddings.

(** A click event: [points] may be missing or empty; each point carries the
    [customdata] of the marker it stands for. *)
Record PlotDatum : Type := { customdata : value }.
Record PlotMouseEvent : Type := { points : option (list PlotDatum) }.

(** [handleClick] (lines 73-80). *)
Definition handleClick (event : PlotMouseEvent) (st : State) : State :=
  match points event with
  | Some (p :: _) =>
      let cid := customdata p in
      setSelectedCluster (if strict_eq (selectedCluster st) cid then Null else cid) st
  | _ => setSelectedCluster Null st
  end.

(** The marker styling (lines 83-94). *)
Definition gray : value := Str "#ccc".

Definition markerColor (props : Props) (st : State) (pt : Point) : value :=
  let level := currentLevel st in
  let selected := selectedCluster st in
  if not_nullish selected && negb (strict_eq (cluster_at pt level) selected) then gray
  else if not_nullish selected && (level <? maxLevel props)%float
          && strict_eq (cluster_at pt level) selected
       then cluster_at pt (level + 1)%float
       else cluster_at pt level.

Definition dimmed : number := 0x1.999999999999ap-3%float.   (* 0.2 *)

Definition markerOpacity (st : State) (pt : Point) : number :=
  if not_nullish (selectedCluster st)
     && negb (strict_eq (cluster_at pt (currentLevel st)) (selectedCluster st))
  then dimmed else 1%float.

(** The single trace handed to the chart widget (lines 118-130). *)
Record Trace : Type := {
  trace_x : list number;
  trace_y : list number;
  trace_customdata : list value;
  marker_color : list value;
  marker_opacity : list number
}.

Definition rendered (props : Props) (st : State) : list Point :=
  filteredData (embeddings props) (currentLevel st) (densityThreshold st).

Definition markerColors (props : Props) (st : State) : list value :=
  map (markerColor props st) (rendered props st).

Definition markerOpacities (props : Props) (st : State) : list number :=
  map (markerOpacity st) (rendered props st).

Definition render (props : Props) (st : State) : Trace :=
  let filtered := rendered props st in
  {| trace_x := map x filtered;
     trace_y := map y filtered;
     trace_customdata := map (fun pt => cluster_at pt (currentLevel st)) filtered;
     marker_color := markerColors props st;
     marker_opacity := markerOpacities props st |}.

(** The event the widget raises for a click on the [i]-th marker of a
    trace: one point, carrying the marker's [customdata]; a click that hits
    no marker carries no point. *)
Definition click_on (trace : Trace) (i : nat) : PlotMouseEvent :=
  {| points :=
       Some (match trace_customdata trace !! i with
             | Some c => [ {| customdata := c |} ]
             | None => []
             end) |}.

End ClusterPlot.

(** ** The vocabulary of the specification

    Definitions that follow the words of the specification; the theorems
    below compare them with the component. *)

Module Spec.
Import JS ClusterPlot.

(** [clamp v lo hi]: [lo] when [v] is at most [lo], [hi] when [v] is at
    least [hi], and [v] otherwise. *)
Definition clamp (v lo hi : number) : number :=
  if (v <=? lo)%float then lo
  else if (hi <=? v)%float then hi
  else v.

(** "totalXRange = max(x) - min(x) over all input points". *)
Definition totalXRange (embeddings : list Point) : number :=
  (Math_max (map x embeddings) - Math_min (map x embeddings))%float.

(** "relativeZoom = clamp((totalXRange - (x1-x0)) / totalXRange, 0, 1)" and
    "currentLevel = floor(relativeZoom * maxLevel)". *)
Definition relativeZoom (totalXRange x0 x1 : number) : number :=
  clamp ((totalXRange - (x1 - x0)) / totalXRange)%float 0%float 1%float.

Definition level_of_zoom (totalXRange x0 x1 maxLevel : number) : number :=
  Math_floor (relativeZoom totalXRange x0 x1 * maxLevel)%float.

(** A number lies in the closed interval [[lo, hi]]. *)
Definition within (lo hi v : number) : Prop :=
  (lo <=? v)%float = true ∧ (v <=? hi)%float = true.

(** "count points per cluster id": the points of the list whose cluster
    identifier at the level is the given one. *)
Definition cluster_size (embeddings : list Point) (level : number) (c : value) : nat :=
  length (List.filter (fun q => strict_eq (cluster_at q level) c) embeddings).

(** "Retain only points whose cluster count >= densityThreshold". *)
Definition dense (embeddings : list Point) (level : number) (threshold : nat) (pt : Point)
  : bool :=
  (threshold <=? cluster_size embeddings level (cluster_at pt level))%nat.

(** The key under which the table of counts files a point, and the number
    of points of the list filed under a key. *)
Definition cluster_key (level : number) (pt : Point) : string :=
  ToPropertyKey (cluster_at pt level).

Definition key_size (embeddings : list Point) (level : number) (key : string) : nat :=
  length (List.filter (fun q => String.eqb (cluster_key level q) key) embeddings).

(** What the table of counts holds after the points [seen]: under a key
    that [Object.prototype] does not define, the number of points filed
    under it (nothing when there is none); under a key that it defines,
    never a number. *)
Definition tallies (level : number) (counts : gmap string entry) (seen : list Point) : Prop :=
  ∀ key : string,
    if bool_decide (key ∈ Object_prototype_keys)
    then ∀ n, counts !! key ≠ Some (Count n)
    else counts !! key = match key_size seen level key with
                         | O => None
                         | S n => Some (Count (S n))
                         end.

(** A cluster is selected when the selection state is neither [null] nor
    [undefined]; a point belongs to the selected cluster when its cluster
    identifier at the level is strictly equal to it. *)
Definition selected (st : State) : Prop := not_nullish (selectedCluster st) = true.



End Spec.

(** ** Rounding

    The two quantities in terms of which the rounding of [SpecFloat]
    ([binary_round_aux]) is described below. *)

Module Binary64.

(** The result for a mantissa [m] and an exponent [e] after rounding. *)
Definition pack (s : bool) (m e : Z) : spec_float :=
  match m with
  | Z0 => S754_zero s
  | Zpos p => if (e <=? emax - prec)%Z then S754_finite s p e else S754_infinity s
  | Zneg _ => S754_nan
  end.

(** By how many bits a mantissa [m] at exponent [e] is shifted right to fit
    the format. *)
Definition shift_of (m e : Z) : Z :=
  Z.max 0 (fexp prec emax (Zdigits2 m + e) - e).

End Binary64.

(** ** Sample inputs *)

Module Samples.
Import JS ClusterPlot.

Definition point_at (vx : number) (ids : list cluster_id) : Point :=
  {| x := vx; y := 0%float; clusters := ids |}.

(** The example of the specification: four points, clusters A, A, B, B. *)
Definition two_pairs : list Point :=
  [ point_at 0 [IdStr "A"]; point_at 1 [IdStr "A"];
    point_at 2 [IdStr "B"]; point_at 3 [IdStr "B"] ]%float.

(** One cluster labelled with the number 1 and one labelled with the
    string "1". *)
Definition mixed_ids : list Point :=
  [ point_at 0 [IdNum 1]; point_at 1 [IdStr "1"] ]%float.

(** A single point whose cluster is called "constructor". *)
Definition constructor_cluster : list Point :=
  [ point_at 0 [IdStr "constructor"] ]%float.

(** Two levels for the first point, only one for the second. *)
Definition ragged : Props :=
  with_defaults
    [ point_at 0 [IdStr "A"; IdStr "A1"]; point_at 1 [IdStr "A"] ]%float.

Definition at_level (level : number) : State := setCurrentLevel level initial.

Definition both_bounds (x0 x1 : number) : PlotRelayoutEvent :=
  {| xaxis_range_0 := Some x0; xaxis_range_1 := Some x1 |}.

Definition only_lower_bound (x0 : number) : PlotRelayoutEvent :=
  {| xaxis_range_0 := Some x0; xaxis_range_1 := None |}.

End Samples.

(** ** The first character of a key

    The string of a number starts with a digit, a minus sign, or the [N] of
    NaN or the [I] of Infinity. *)

Module Keys.

Definition numeric_start (s : string) : bool :=
  match s with
  | String c _ =>
      existsb (Ascii.eqb c) (list_ascii_of_string "0123456789-NI")
  | EmptyString => false
  end.

End Keys.

(** ** Integers and signs among the numbers

    [denotes] relates a mantissa and an exponent to the integer [m * 2^e];
    the integers from 1 up to [2^53 - 1] each have one representation as a
    binary64 number. *)

Module Dyadic.

Definition denotes (m e n : Z) : Prop :=
  if (0 <=? e)%Z then n = (m * 2 ^ e)%Z else m = (n * 2 ^ (- e))%Z.

Definition canonical (n : Z) : spec_float :=
  S754_finite false (Z.to_pos (n * 2 ^ (prec - Zdigits2 n))) (Zdigits2 n - prec).

(** Zero or below: a zero, a negative finite number or [-Infinity]. *)
Definition at_most_zero (a : spec_float) : bool :=
  match a with
  | S754_zero _ | S754_finite true _ _ | S754_infinity true => true
  | _ => false
  end.

(** Zero or above: a zero, a positive finite number or [+Infinity]. *)
Definition at_least_zero (a : spec_float) : bool :=
  match a with
  | S754_zero _ | S754_finite false _ _ | S754_infinity false => true
  | _ => false
  end.

End Dyadic.

(** ** Sessions

    The component in use: the events it receives, one after the other, from
    its initial state. *)

Module Session.
Import JS ClusterPlot.

(** What the user can do: zoom or pan (a relayout event), click on the
    [i]-th marker of the trace on screen (an index past the markers is a click
    on empty space), move the slider. *)
Inductive Event : Type :=
| Relayout (event : PlotRelayoutEvent)
| Click (i : nat)
| Slide (threshold : nat).

Definition step (props : Props) (st : State) (event : Event) : State :=
  match event with
  | Relayout e => handleRelayout props e st
  | Click i => handleClick (click_on (render props st) i) st
  | Slide threshold => setDensityThreshold threshold st
  end.

Definition run (props : Props) (events : list Event) : State :=
  foldl (step props) initial events.

(** The event carries both bounds. *)
Definition complete (event : PlotRelayoutEvent) : bool :=
  match xaxis_range_0 event, xaxis_range_1 event with
  | Some _, Some _ => true
  | _, _ => false
  end.

(** The last event of a sequence that carries both bounds. *)
Fixpoint last_complete (events : list PlotRelayoutEvent) : option PlotRelayoutEvent :=
  match events with
  | [] => None
  | event :: rest =>
      match last_complete rest with
      | Some e => Some e
      | None => if complete event then Some event else None
      end
  end.

(** The relayout events of a session, in order. *)
Definition zooms (events : list Event) : list PlotRelayoutEvent :=
  omap (fun event => match event with Relayout e => Some e | _ => None end) events.

(** The bounds that an event carries are finite numbers. *)
Definition finite_bounds (event : PlotRelayoutEvent) : Prop :=
  (∀ x0, xaxis_range_0 event = Some x0 → is_finite x0 = true)
  ∧ (∀ x1, xaxis_range_1 event = Some x1 → is_finite x1 = true).

Definition finite_zooms (events : list Event) : Prop :=
  ∀ e, Relayout e ∈ events → finite_bounds e.

(** The input contract of the data model: [maxLevel] is the integer [M], the
    total range is finite and positive, and every point has a cluster
    identifier for each of the levels [0 .. M]. *)
Definition well_formed (props : Props) (M : Z) : Prop :=
  integer_value (maxLevel props) = Some M
  ∧ (0 <= M < 2 ^ 53)%Z
  ∧ (0 <? totalRange (embeddings props))%float = true
  ∧ is_finite (totalRange (embeddings props)) = true
  ∧ ∀ pt, pt ∈ embeddings props → (M < Z.of_nat (length (clusters pt)))%Z.

(** A value that is a cluster identifier (not [undefined], not [null]). *)
Definition is_cluster_id (a : value) : Prop := ∃ c, a = id_value c.

(** The level is an integer from 0 to [M]. *)
Definition index_level (M : Z) (st : State) : Prop :=
  ∃ n, integer_value (currentLevel st) = Some n ∧ (0 <= n <= M)%Z.

(** Nothing is selected, or a cluster identifier is. *)
Definition selection_ok (st : State) : Prop :=
  selectedCluster st = Null ∨ is_cluster_id (selectedCluster st).

(** A colour that the chart can draw: the gray of dimmed markers, or a
    cluster identifier. *)
Definition colour_ok (c : value) : Prop := c = gray ∨ is_cluster_id c.

(** A sample: three points with two levels each, and a session on them. *)
Definition two_levels : Props :=
  {| embeddings :=
       [ {| x := 0; y := 0; clusters := [IdStr "A"; IdStr "A1"] |};
         {| x := 1; y := 0; clusters := [IdStr "A"; IdStr "A2"] |};
         {| x := 4; y := 0; clusters := [IdStr "B"; IdStr "B1"] |} ]%float;
     maxLevel := 1%float;
     sliderMax := 10%float |}.

(** A sample with numbers as cluster identifiers. *)
Definition numbered : list Point :=
  [ {| x := 0; y := 0; clusters := [IdNum 1] |};
    {| x := 1; y := 0; clusters := [IdNum 1] |};
    {| x := 2; y := 0; clusters := [IdNum 2.5] |} ]%float.

Definition zoom_click_slide : list Event :=
  [ Relayout {| xaxis_range_0 := Some 0%float; xaxis_range_1 := Some 1%float |};
    Click 0;
    Slide 2;
    Relayout {| xaxis_range_0 := Some 1%float; xaxis_range_1 := None |} ].

End Session.

Import JS ClusterPlot Spec Binary64.
Import Keys Dyadic Session.

(** ** The runtime on sample values *)

Example Math_floor_samples :
  map Math_floor [3 / 2; - (3 / 2); 1 / 2; - (1 / 2); 0; - 0; 3; - 3; nan; infinity]%float
  = [1; - 2; 0; - 1; 0; - 0; 3; - 3; nan; infinity]%float.
Proof. vm_compute. reflexivity. Qed.

Example Math_max_min_samples :
  (Math_max [], Math_min [], Math_max [1; 3; 2], Math_min [1; 3; 2],
   Math_max [1; nan], Math_max [- 0; 0], Math_min [0; - 0])%float
  = (neg_infinity, infinity, 3, 1, nan, 0, - 0)%float.
Proof. vm_compute. reflexivity. Qed.

Example Number_toString_samples :
  map Number_toString
    [1; 1 / 2; 1 / 10; 1 / 10 + 2 / 10; 1 / 3; 1e21; 1 / 10000000; - (3 / 2);
     1024 * 1024; nan; infinity; - 0]%float
  = [ "1"; "0.5"; "0.1"; "0.30000000000000004"; "0.3333333333333333"; "1e+21"; "1e-7";
      "-1.5"; "1048576"; "NaN"; "Infinity"; "0" ]%string.
Proof. vm_compute. reflexivity. Qed.

Example Array_get_samples :
  map (Array_get [IdStr "A"; IdStr "A1"]) [0; - 0; 1; 2; 1 / 2; - 1; nan]%float
  = [Some (IdStr "A"); Some (IdStr "A"); Some (IdStr "A1"); None; None; None; None].
Proof. vm_compute. reflexivity. Qed.

(** ** The density filter *)

Section DensityFilter.
Variable level : number.

Lemma proto_key_not_proto (key : string) :
  key ∉ Object_prototype_keys → String.eqb key "__proto__" = false.
Proof.
  intros Hk. apply String.eqb_neq. intros ->. apply Hk.
  unfold Object_prototype_keys. set_solver.
Qed.

Lemma key_size_snoc (seen : list Point) (pt : Point) (key : string) :
  key_size (seen ++ [pt]) level key
  = (key_size seen level key + if String.eqb (cluster_key level pt) key then 1 else 0)%nat.
Proof.
  unfold key_size. rewrite List.filter_app, length_app. simpl.
  destruct (String.eqb (cluster_key level pt) key); reflexivity.
Qed.

Lemma tallies_empty : tallies level ∅ [].
Proof.
  intros key. case_bool_decide.
  - intros n. rewrite lookup_empty. discriminate.
  - rewrite lookup_empty. reflexivity.
Qed.

(** One iteration of the [forEach] keeps the table in step with the points
    seen so far. *)
Lemma tallies_step (counts : gmap string entry) (seen : list Point) (pt : Point) :
  tallies level counts seen → tallies level (count_step level counts pt) (seen ++ [pt]).
Proof.
  intros Hinv key. unfold count_step. fold (cluster_key level pt).
  set (kp := cluster_key level pt).
  pose proof (Hinv kp) as Hkp. pose proof (Hinv key) as Hkey.
  rewrite key_size_snoc. fold kp.
  unfold object_get, object_set.
  destruct (String.eqb_spec kp key) as [<- | Hne].
  - (* the key of the point itself *)
    case_bool_decide as Hproto.
    + intros n. destruct (String.eqb kp "__proto__"); [apply Hkp |].
      rewrite lookup_insert_eq.
      destruct (counts !! kp) as [[m |] |] eqn:E; simpl; try discriminate.
      exfalso. exact (Hkp m eq_refl).
    + rewrite (proto_key_not_proto kp Hproto), lookup_insert_eq, Hkp.
      destruct (key_size seen level kp) as [| m]; simpl.
      * reflexivity.
      * do 2 f_equal. lia.
  - (* another key: the table is unchanged there *)
    assert (Hsame : (if String.eqb kp "__proto__" then counts
                     else <[kp := or_zero_plus_one
                                    match counts !! kp with
                                    | Some v => Own v
                                    | None => if bool_decide (kp ∈ Object_prototype_keys)
                                              then Inherited else Absent
                                    end]> counts) !! key = counts !! key).
    { destruct (String.eqb kp "__proto__"); [reflexivity |].
      by rewrite lookup_insert_ne. }
    rewrite Hsame. clear Hsame Hkp.
    destruct (bool_decide (key ∈ Object_prototype_keys)).
    + exact Hkey.
    + rewrite Hkey. by rewrite Nat.add_0_r.
Qed.

Lemma tallies_foldl (rest seen : list Point) (counts : gmap string entry) :
  tallies level counts seen →
  tallies level (foldl (count_step level) counts rest) (seen ++ rest).
Proof.
  revert seen counts. induction rest as [| pt rest IH]; intros seen counts Hinv; simpl.
  - by rewrite app_nil_r.
  - replace (seen ++ pt :: rest) with ((seen ++ [pt]) ++ rest) by (by rewrite <- app_assoc).
    apply IH, tallies_step, Hinv.
Qed.

Lemma cluster_counts_tallies (embeddings : list Point) :
  tallies level (cluster_counts embeddings level) embeddings.
Proof. apply (tallies_foldl embeddings [] ∅), tallies_empty. Qed.

Lemma key_size_member (embeddings : list Point) (pt : Point) :
  pt ∈ embeddings → (1 <= key_size embeddings level (cluster_key level pt))%nat.
Proof.
  intros Hin. unfold key_size.
  induction Hin as [pt l | pt q l Hin IH]; simpl.
  - rewrite String.eqb_refl. simpl. lia.
  - destruct (String.eqb (cluster_key level q) (cluster_key level pt)); simpl; lia.
Qed.

(** What the predicate of the [filter] computes for a point of the list. *)
Lemma retained_test (embeddings : list Point) (threshold : nat) (pt : Point) :
  pt ∈ embeddings →
  at_least (object_get (cluster_counts embeddings level) (cluster_key level pt)) threshold
  = negb (bool_decide (cluster_key level pt ∈ Object_prototype_keys))
    && (threshold <=? key_size embeddings level (cluster_key level pt))%nat.
Proof.
  intros Hin. pose proof (cluster_counts_tallies embeddings (cluster_key level pt)) as Hinv.
  pose proof (key_size_member embeddings pt Hin) as Hpos.
  unfold object_get. case_bool_decide as Hproto; simpl.
  - destruct (cluster_counts embeddings level !! cluster_key level pt) as [[n |] |] eqn:E;
      simpl; try reflexivity.
    exfalso. exact (Hinv n eq_refl).
  - rewrite Hinv.
    destruct (key_size embeddings level (cluster_key level pt)) as [| n]; [lia |].
    reflexivity.
Qed.

Lemma filteredData_elem (embeddings : list Point) (threshold : nat) (pt : Point) :
  pt ∈ filteredData embeddings level threshold ↔
  pt ∈ embeddings
  ∧ at_least (object_get (cluster_counts embeddings level) (cluster_key level pt)) threshold
    = true.
Proof.
  unfold filteredData. rewrite !list_elem_of_In, List.filter_In. reflexivity.
Qed.

Lemma at_least_mono (r : read) (t1 t2 : nat) :
  (t1 <= t2)%nat → at_least r t2 = true → at_least r t1 = true.
Proof.
  destruct r as [| [n |] |]; simpl; try discriminate.
  intros Hle H. apply Nat.leb_le in H. apply Nat.leb_le. lia.
Qed.

End DensityFilter.

(** Filtering keeps the order of the list, and a stronger test keeps fewer
    elements. *)
Lemma filter_sublist_of {A : Type} (f : A → bool) (l : list A) :
  sublist (List.filter f l) l.
Proof.
  induction l as [| a l IH]; simpl.
  - constructor.
  - destruct (f a); by constructor.
Qed.

Lemma filter_sublist_mono {A : Type} (f g : A → bool) (l : list A) :
  (∀ a, f a = true → g a = true) → sublist (List.filter f l) (List.filter g l).
Proof.
  intros Himp. induction l as [| a l IH]; simpl.
  - constructor.
  - destruct (f a) eqn:Ef.
    + rewrite (Himp a Ef). by constructor.
    + destruct (g a); [by constructor | exact IH].
Qed.

(** C4 (as stated, refuted). With one cluster labelled by the number 1 and
    one by the string "1", each cluster has a single point, so at threshold 2
    no point is dense; the table of counts files both under the key "1" and
    the filter keeps both. *)
Lemma mixed_ids_counterexample :
  filteredData Samples.mixed_ids 0 2 = Samples.mixed_ids
  ∧ map (dense Samples.mixed_ids 0 2) Samples.mixed_ids = [false; false].
Proof. split; vm_compute; reflexivity. Qed.

(** For string identifiers the key is the identifier itself: counting by
    key is counting by cluster. *)
Lemma key_size_of_strings (embeddings : list Point) (level : number) (s : string) :
  (∀ q, q ∈ embeddings → ∃ t, cluster_at q level = Str t) →
  key_size embeddings level s = cluster_size embeddings level (Str s).
Proof.
  unfold key_size, cluster_size, cluster_key.
  induction embeddings as [| q l IH]; intros Hstr; simpl; [reflexivity |].
  destruct (Hstr q ltac:(set_solver)) as [t Ht]. rewrite Ht. simpl.
  assert (IH' : length (List.filter (λ q, String.eqb (ToPropertyKey (cluster_at q level)) s) l)
                = length (List.filter (λ q, strict_eq (cluster_at q level) (Str s)) l)).
  { apply IH. intros q' Hq'. apply Hstr. set_solver. }
  destruct (String.eqb t s); simpl; by rewrite IH'.
Qed.

(** With threshold 0 the filter keeps every point whose key is not a name
    of [Object.prototype]. *)
Lemma threshold_zero_keeps_ordinary_keys (embeddings : list Point) (level : number) :
  (∀ pt, pt ∈ embeddings → cluster_key level pt ∉ Object_prototype_keys) →
  filteredData embeddings level 0 = embeddings.
Proof.
  intros Hkeys. unfold filteredData.
  assert (Hall : ∀ l : list Point,
             (∀ pt, pt ∈ l → pt ∈ embeddings) →
             List.filter
               (λ pt, at_least (object_get (cluster_counts embeddings level)
                                  (ToPropertyKey (cluster_at pt level))) 0) l = l).
  { induction l as [| pt l IH]; intros Hsub; simpl; [reflexivity |].
    fold (cluster_key level pt).
    rewrite (retained_test level embeddings 0 pt) by (apply Hsub; set_solver).
    rewrite bool_decide_eq_false_2 by (apply Hkeys, Hsub; set_solver). simpl.
    f_equal. apply IH. intros pt' Hpt'. apply Hsub. set_solver. }
  by apply Hall.
Qed.

(** C4 (amended). A point whose cluster key is not a property name of
    [Object.prototype] is in the filtered set if and only if it is a point of
    the list and the number of points of the list filed under the same key
    (the string form of the cluster identifier at the level) is at least the
    threshold. When the cluster identifiers at the level are all strings, that
    number is the number of points that share the point's cluster
    identifier. *)
Theorem filteredData_by_key
    (embeddings : list Point) (level : number) (threshold : nat) (pt : Point) :
  cluster_key level pt ∉ Object_prototype_keys →
  (pt ∈ filteredData embeddings level threshold
   ↔ pt ∈ embeddings ∧ (threshold <= key_size embeddings level (cluster_key level pt))%nat)
  ∧ ((∀ q, q ∈ embeddings → ∃ t, cluster_at q level = Str t) →
     pt ∈ embeddings →
     key_size embeddings level (cluster_key level pt)
     = cluster_size embeddings level (cluster_at pt level)).
Proof.
  intros Hkey. split.
  - rewrite filteredData_elem. split.
    + intros [Hin Htest]. split; [exact Hin |].
      rewrite (retained_test level embeddings threshold pt Hin) in Htest.
      apply andb_prop in Htest as [_ Hle]. by apply Nat.leb_le.
    + intros [Hin Hle]. split; [exact Hin |].
      rewrite (retained_test level embeddings threshold pt Hin).
      rewrite bool_decide_eq_false_2 by exact Hkey. simpl. by apply Nat.leb_le.
  - intros Hstr Hin. destruct (Hstr pt Hin) as [t Ht].
    unfold cluster_key. rewrite Ht. simpl. by apply key_size_of_strings.
Qed.

Lemma filteredData_by_key_witness :
  (cluster_key 0 (Samples.point_at 2 [IdStr "B"]) ∉ Object_prototype_keys)
  ∧ (Samples.point_at 2 [IdStr "B"] ∈ filteredData Samples.two_pairs 0 2
     ↔ Samples.point_at 2 [IdStr "B"] ∈ Samples.two_pairs
       ∧ (2 <= key_size Samples.two_pairs 0
                 (cluster_key 0 (Samples.point_at 2 [IdStr "B"])))%nat).
Proof.
  assert (H : cluster_key 0 (Samples.point_at 2 [IdStr "B"]) ∉ Object_prototype_keys).
  { vm_compute. intros H. repeat (inversion H as [| ? ? ? H']; clear H; rename H' into H). }
  split; [exact H |].
  exact (proj1 (filteredData_by_key Samples.two_pairs 0 2 (Samples.point_at 2 [IdStr "B"]) H)).
Defined.

(** The example of the specification: threshold 2 keeps the four points,
    threshold 3 keeps none. *)
Example two_pairs_threshold_2 : filteredData Samples.two_pairs 0 2 = Samples.two_pairs.
Proof. vm_compute. reflexivity. Qed.

Example two_pairs_threshold_3 : filteredData Samples.two_pairs 0 3 = [].
Proof. vm_compute. reflexivity. Qed.

(** C5 (the code at the failing input). With threshold 0 the only point of
    a cluster called "constructor" is filtered out: [counts["constructor"]]
    reads the inherited function, [+ 1] turns it into a string, and the
    string is not [>= 0]. *)
Lemma threshold_zero_drops_constructor :
  filteredData Samples.constructor_cluster 0 0 = [].
Proof. vm_compute. reflexivity. Qed.

(** C10. Raising the threshold can only remove points: the list kept at
    threshold [t2] is a sublist (so a subset, in the same order) of the list
    kept at [t1 <= t2]; and every filtered list is a sublist of the input, so
    the points appear in their input order. *)
Theorem filteredData_monotone
    (embeddings : list Point) (level : number) (t1 t2 : nat) :
  (t1 <= t2)%nat →
  sublist (filteredData embeddings level t2) (filteredData embeddings level t1)
  ∧ filteredData embeddings level t2 ⊆ filteredData embeddings level t1
  ∧ sublist (filteredData embeddings level t1) embeddings
  ∧ sublist (filteredData embeddings level t2) embeddings.
Proof.
  intros Hle.
  assert (Hsub : sublist (filteredData embeddings level t2) (filteredData embeddings level t1)).
  { apply filter_sublist_mono. intros pt. by apply at_least_mono. }
  repeat split.
  - exact Hsub.
  - by apply sublist_subseteq.
  - apply filter_sublist_of.
  - apply filter_sublist_of.
Qed.

Lemma filteredData_monotone_witness :
  (2 <= 3)%nat
  ∧ sublist (filteredData Samples.two_pairs 0 3) (filteredData Samples.two_pairs 0 2)
  ∧ filteredData Samples.two_pairs 0 3 ⊆ filteredData Samples.two_pairs 0 2
  ∧ sublist (filteredData Samples.two_pairs 0 2) Samples.two_pairs
  ∧ sublist (filteredData Samples.two_pairs 0 3) Samples.two_pairs.
Proof.
  assert (H : (2 <= 3)%nat) by lia.
  split; [exact H |].
  exact (filteredData_monotone Samples.two_pairs 0 2 3 H).
Defined.

(** ** The event handlers and the styling *)

Lemma lookup_map {A B : Type} (f : A → B) (l : list A) (i : nat) :
  map f l !! i = f <$> (l !! i).
Proof.
  revert i. induction l as [| a l IH]; intros [| i]; simpl; try reflexivity. apply IH.
Qed.

(** C3. A relayout event that lacks either x-axis bound leaves the whole
    state (level, threshold, selection) as it was. *)
Theorem handleRelayout_without_bounds
    (props : Props) (event : PlotRelayoutEvent) (st : State) :
  xaxis_range_0 event = None ∨ xaxis_range_1 event = None →
  handleRelayout props event st = st.
Proof.
  unfold handleRelayout. intros [H | H]; rewrite H.
  - reflexivity.
  - by destruct (xaxis_range_0 event).
Qed.

Lemma handleRelayout_without_bounds_witness :
  (xaxis_range_0 (Samples.only_lower_bound 1) = None
   ∨ xaxis_range_1 (Samples.only_lower_bound 1) = None)
  ∧ handleRelayout Samples.ragged (Samples.only_lower_bound 1) (Samples.at_level 1)
    = Samples.at_level 1.
Proof.
  assert (H : xaxis_range_0 (Samples.only_lower_bound 1) = None
              ∨ xaxis_range_1 (Samples.only_lower_bound 1) = None)
    by (right; reflexivity).
  split; [exact H |].
  exact (handleRelayout_without_bounds Samples.ragged (Samples.only_lower_bound 1)
           (Samples.at_level 1) H).
Defined.

Section Click.
Variables (props : Props) (st : State).

(** The click on a rendered marker carries the cluster identifier of its
    point at the current level (line 122). *)
Lemma click_on_rendered (i : nat) (pt : Point) :
  rendered props st !! i = Some pt →
  click_on (render props st) i
  = {| points := Some [ {| customdata := cluster_at pt (currentLevel st) |} ] |}.
Proof.
  intros Hi. unfold click_on, render. simpl.
  by rewrite lookup_map, Hi.
Qed.

Lemma click_past_the_markers (i : nat) :
  rendered props st !! i = None →
  click_on (render props st) i = {| points := Some [] |}.
Proof.
  intros Hi. unfold click_on, render. simpl.
  by rewrite lookup_map, Hi.
Qed.

(** The selection does not take part in the filter: a click leaves the
    rendered points as they are. *)
Lemma rendered_after_click (event : PlotMouseEvent) :
  rendered props (handleClick event st) = rendered props st.
Proof.
  unfold rendered, handleClick.
  destruct (points event) as [[| p rest] |]; reflexivity.
Qed.

Lemma currentLevel_after_click (event : PlotMouseEvent) :
  currentLevel (handleClick event st) = currentLevel st.
Proof.
  unfold handleClick. destruct (points event) as [[| p rest] |]; reflexivity.
Qed.

End Click.

(** C6. A click that carries a point sets the selection to the point's
    cluster identifier at the current level, unless the selection is already
    (strictly) equal to it, in which case the selection is cleared; a click
    that carries no point clears it. Hence two clicks on markers of the same
    cluster, from a state in which that cluster is not selected, end with no
    selection. *)
Theorem handleClick_toggles (props : Props) (st : State) :
  (∀ i pt,
      rendered props st !! i = Some pt →
      handleClick (click_on (render props st) i) st
      = setSelectedCluster
          (if strict_eq (selectedCluster st) (cluster_at pt (currentLevel st))
           then Null else cluster_at pt (currentLevel st)) st)
  ∧ (∀ p rest,
        handleClick {| points := Some (p :: rest) |} st
        = setSelectedCluster
            (if strict_eq (selectedCluster st) (customdata p) then Null else customdata p) st)
  ∧ handleClick {| points := Some [] |} st = setSelectedCluster Null st
  ∧ handleClick {| points := None |} st = setSelectedCluster Null st
  ∧ (∀ i j pt_i pt_j,
        rendered props st !! i = Some pt_i →
        rendered props st !! j = Some pt_j →
        strict_eq (cluster_at pt_i (currentLevel st)) (cluster_at pt_j (currentLevel st)) = true →
        strict_eq (selectedCluster st) (cluster_at pt_i (currentLevel st)) = false →
        let st' := handleClick (click_on (render props st) i) st in
        selectedCluster st' = cluster_at pt_i (currentLevel st)
        ∧ selectedCluster (handleClick (click_on (render props st') j) st') = Null).
Proof.
  split; [| split; [| split; [| split]]]; try reflexivity.
  - intros i pt Hi. by rewrite (click_on_rendered props st i pt Hi).
  - intros i j pt_i pt_j Hi Hj Hsame Hnot st'.
    assert (Hsel : selectedCluster st' = cluster_at pt_i (currentLevel st)).
    { unfold st'. rewrite (click_on_rendered props st i pt_i Hi). simpl. by rewrite Hnot. }
    split; [exact Hsel |].
    assert (Hj' : rendered props st' !! j = Some pt_j)
      by (unfold st'; by rewrite rendered_after_click).
    assert (Hlevel : currentLevel st' = currentLevel st)
      by apply currentLevel_after_click.
    rewrite (click_on_rendered props st' j pt_j Hj').
    unfold handleClick. simpl. by rewrite Hsel, Hlevel, Hsame.
Qed.

Lemma handleClick_toggles_witness :
  rendered Samples.ragged initial !! 0%nat
  = Some (Samples.point_at 0 [IdStr "A"; IdStr "A1"])
  ∧ selectedCluster
      (handleClick (click_on (render Samples.ragged initial) 0) initial) = Str "A"
  ∧ selectedCluster
      (handleClick
         (click_on
            (render Samples.ragged
               (handleClick (click_on (render Samples.ragged initial) 0) initial)) 1)
         (handleClick (click_on (render Samples.ragged initial) 0) initial)) = Null.
Proof.
  split; [vm_compute; reflexivity |].
  destruct (handleClick_toggles Samples.ragged initial) as (_ & _ & _ & _ & Htwice).
  apply (Htwice 0%nat 1%nat (Samples.point_at 0 [IdStr "A"; IdStr "A1"])
           (Samples.point_at 1 [IdStr "A"])); vm_compute; reflexivity.
Defined.



(** ** Points with too few levels *)

Lemma Array_get_past_the_end {A : Type} (arr : list A) (i : number) (n : Z) :
  integer_value i = Some n → (Z.of_nat (length arr) <= n)%Z → Array_get arr i = None.
Proof.
  intros Hi Hlen. unfold Array_get. rewrite Hi.
  destruct (0 <=? n)%Z; simpl; [| reflexivity].
  destruct (Z.ltb_spec n (Z.of_nat (length arr))); [lia | reflexivity].
Qed.

(** C9 (as stated, refuted). After a click on the first marker at level 1,
    the second point, which has no cluster at level 1, is retained and styled
    with the gray colour and opacity 0.2, not with [undefined]. *)
Lemma short_clusters_counterexample :
  selectedCluster
    (handleClick (click_on (render Samples.ragged (Samples.at_level 1)) 0)
       (Samples.at_level 1)) = Str "A1"
  ∧ rendered Samples.ragged
      (handleClick (click_on (render Samples.ragged (Samples.at_level 1)) 0)
         (Samples.at_level 1)) !! 1%nat
    = Some (Samples.point_at 1 [IdStr "A"])
  ∧ marker_color
      (render Samples.ragged
         (handleClick (click_on (render Samples.ragged (Samples.at_level 1)) 0)
            (Samples.at_level 1))) !! 1%nat
    = Some (Str "#ccc")
  ∧ marker_opacity
      (render Samples.ragged
         (handleClick (click_on (render Samples.ragged (Samples.at_level 1)) 0)
            (Samples.at_level 1))) !! 1%nat
    = Some dimmed.
Proof. repeat split; vm_compute; reflexivity. Qed.

(** C9 (amended). For a retained point whose [clusters] has no entry at the
    current level, the cluster lookup is [undefined] and is handed to the
    widget as the marker's custom data. When no cluster is selected the colour
    is that [undefined] value and the opacity is 1; when a cluster is selected
    the point is styled like any point outside the selection (gray, 0.2). The
    derivation is a total function: nothing is raised. *)
Theorem short_clusters_styling
    (props : Props) (st : State) (i : nat) (pt : Point) (n : Z) :
  rendered props st !! i = Some pt →
  integer_value (currentLevel st) = Some n →
  (Z.of_nat (length (clusters pt)) <= n)%Z →
  cluster_at pt (currentLevel st) = Undefined
  ∧ trace_customdata (render props st) !! i = Some Undefined
  ∧ (¬ selected st →
     marker_color (render props st) !! i = Some Undefined
     ∧ marker_opacity (render props st) !! i = Some 1%float)
  ∧ (selected st →
     marker_color (render props st) !! i = Some gray
     ∧ marker_opacity (render props st) !! i = Some dimmed).
Proof.
  intros Hi Hlevel Hshort.
  assert (Hmiss : cluster_at pt (currentLevel st) = Undefined).
  { unfold cluster_at. by rewrite (Array_get_past_the_end _ _ n Hlevel Hshort). }
  unfold render, markerColors, markerOpacities. simpl. rewrite !lookup_map, Hi. simpl.
  unfold selected, markerColor, markerOpacity. rewrite Hmiss.
  split; [reflexivity |]. split; [reflexivity |]. split.
  - intros Hsel. by destruct (not_nullish (selectedCluster st)).
  - intros Hsel. rewrite Hsel. by destruct (selectedCluster st).
Qed.

Lemma short_clusters_styling_witness :
  rendered Samples.ragged (Samples.at_level 1) !! 1%nat = Some (Samples.point_at 1 [IdStr "A"])
  ∧ integer_value (currentLevel (Samples.at_level 1)) = Some 1%Z
  ∧ (Z.of_nat (length (clusters (Samples.point_at 1 [IdStr "A"]))) <= 1)%Z
  ∧ cluster_at (Samples.point_at 1 [IdStr "A"]) (currentLevel (Samples.at_level 1)) = Undefined.
Proof.
  assert (H1 : rendered Samples.ragged (Samples.at_level 1) !! 1%nat
               = Some (Samples.point_at 1 [IdStr "A"])) by (vm_compute; reflexivity).
  assert (H2 : integer_value (currentLevel (Samples.at_level 1)) = Some 1%Z)
    by (vm_compute; reflexivity).
  assert (H3 : (Z.of_nat (length (clusters (Samples.point_at 1 [IdStr "A"]))) <= 1)%Z)
    by (simpl; lia).
  split; [exact H1 |]. split; [exact H2 |]. split; [exact H3 |].
  exact (proj1 (short_clusters_styling Samples.ragged (Samples.at_level 1) 1
                  (Samples.point_at 1 [IdStr "A"]) 1 H1 H2 H3)).
Defined.

(** ** Numbers: comparisons and special values

    The primitive operations are specified by their counterparts on
    [spec_float] (FloatAxioms); the lemmas below read the tests of the runtime
    off the [spec_float] of their argument. *)

Lemma SFcompare_refl (a : spec_float) : a ≠ S754_nan → SFcompare a a = Some Eq.
Proof.
  destruct a as [[|] | [|] | | [|] m e]; simpl; try congruence; intros _;
    rewrite Z.compare_refl, Pos.compare_cont_refl; reflexivity.
Qed.

Lemma isNaN_spec (v : number) :
  isNaN v = match Prim2SF v with S754_nan => true | _ => false end.
Proof.
  unfold isNaN, is_nan. rewrite FloatAxioms.eqb_spec. unfold SFeqb.
  destruct (Prim2SF v) eqn:E; try (rewrite SFcompare_refl by discriminate); reflexivity.
Qed.

Lemma is_pos_zero_spec (v : number) :
  is_pos_zero v = match Prim2SF v with S754_zero false => true | _ => false end.
Proof.
  unfold is_pos_zero. rewrite classify_spec. unfold SF64classify, SFclassify.
  destruct (Prim2SF v) as [[|] | [|] | | [|] m e]; try reflexivity;
    destruct (Z.eqb _ _); reflexivity.
Qed.

Lemma is_neg_zero_spec (v : number) :
  is_neg_zero v = match Prim2SF v with S754_zero true => true | _ => false end.
Proof.
  unfold is_neg_zero. rewrite classify_spec. unfold SF64classify, SFclassify.
  destruct (Prim2SF v) as [[|] | [|] | | [|] m e]; try reflexivity;
    destruct (Z.eqb _ _); reflexivity.
Qed.

Lemma is_finite_spec (v : number) :
  is_finite v = match Prim2SF v with
                | S754_zero _ | S754_finite _ _ _ => true
                | _ => false
                end.
Proof.
  unfold is_finite, is_infinity. fold (isNaN v). rewrite isNaN_spec.
  rewrite FloatAxioms.eqb_spec, abs_spec.
  change (Prim2SF infinity) with (S754_infinity false).
  destruct (Prim2SF v) as [[|] | [|] | | [|] m e]; reflexivity.
Qed.

Lemma NaN_unique (v : number) : Prim2SF v = S754_nan → v = NaN.
Proof. intros H. apply Prim2SF_inj. by rewrite H. Qed.

(** [Math.min(Math.max(v, 0), 1)] is the clamp of the specification, for
    every number, NaN and the zeros included. *)
Lemma clamp_agrees (v : number) :
  Math_min [Math_max [v; 0%float]; 1%float] = clamp v 0 1.
Proof.
  unfold Math_min, Math_max, clamp. simpl.
  rewrite !isNaN_spec, !is_pos_zero_spec, !is_neg_zero_spec.
  rewrite !FloatAxioms.ltb_spec, ?FloatAxioms.leb_spec.
  change (Prim2SF neg_infinity) with (S754_infinity true).
  change (Prim2SF infinity) with (S754_infinity false).
  change (Prim2SF 0) with (S754_zero false).
  change (Prim2SF 1) with (S754_finite false 4503599627370496 (-52)).
  destruct (Prim2SF v) as [[|] | [|] | | [|] m e] eqn:E; simpl.
  all: try rewrite E; simpl.
  all: try reflexivity.
  - apply Prim2SF_inj. by rewrite E.
  - symmetry. by apply NaN_unique.
  - unfold SFltb, SFleb, SFcompare.
    destruct (Z.compare_spec (-52) e) as [He | He | He]; try reflexivity.
    fold (Pos.compare 4503599627370496 m).
    destruct (Pos.compare_spec 4503599627370496 m) as [Hm | Hm | Hm]; try reflexivity.
    symmetry. apply Prim2SF_inj. rewrite E. subst. reflexivity.
Qed.

(** ** Zoom to level *)

(** C1. A relayout event that carries both x-axis bounds [x0] and [x1]
    sets the level to [floor(clamp((T - (x1 - x0)) / T, 0, 1) * maxLevel)],
    where [T = max(x) - min(x)] over all the points, and changes nothing else
    in the state. *)
Theorem handleRelayout_sets_level
    (props : Props) (event : PlotRelayoutEvent) (st : State) (x0 x1 : number) :
  xaxis_range_0 event = Some x0 →
  xaxis_range_1 event = Some x1 →
  totalRange (embeddings props) = totalXRange (embeddings props)
  ∧ handleRelayout props event st
    = setCurrentLevel
        (level_of_zoom (totalXRange (embeddings props)) x0 x1 (maxLevel props)) st
  ∧ currentLevel (handleRelayout props event st)
    = Math_floor
        (clamp ((totalXRange (embeddings props) - (x1 - x0)) / totalXRange (embeddings props))
               0 1
         * maxLevel props)
  ∧ densityThreshold (handleRelayout props event st) = densityThreshold st
  ∧ selectedCluster (handleRelayout props event st) = selectedCluster st.
Proof.
  intros H0 H1.
  assert (HT : totalRange (embeddings props) = totalXRange (embeddings props)) by reflexivity.
  assert (Hstep : handleRelayout props event st
                  = setCurrentLevel
                      (level_of_zoom (totalXRange (embeddings props)) x0 x1 (maxLevel props))
                      st).
  { unfold handleRelayout. rewrite H0, H1, HT.
    unfold ClusterPlot.relativeZoom, level_of_zoom, Spec.relativeZoom.
    by rewrite clamp_agrees. }
  split; [exact HT |]. split; [exact Hstep |].
  rewrite Hstep. repeat split.
Qed.

Lemma handleRelayout_sets_level_witness :
  xaxis_range_0 (Samples.both_bounds 1 2) = Some 1%float
  ∧ xaxis_range_1 (Samples.both_bounds 1 2) = Some 2%float
  ∧ currentLevel
      (handleRelayout (with_defaults Samples.two_pairs) (Samples.both_bounds 1 2) initial)
    = 6%float.
Proof.
  assert (H0 : xaxis_range_0 (Samples.both_bounds 1 2) = Some 1%float) by reflexivity.
  assert (H1 : xaxis_range_1 (Samples.both_bounds 1 2) = Some 2%float) by reflexivity.
  split; [exact H0 |]. split; [exact H1 |].
  destruct (handleRelayout_sets_level (with_defaults Samples.two_pairs)
              (Samples.both_bounds 1 2) initial 1 2 H0 H1) as (_ & _ & Hlevel & _).
  rewrite Hlevel. vm_compute. reflexivity.
Defined.

(** ** A zero range *)

Lemma ltb_irrefl_finite (v : number) : is_finite v = true → (v <? v)%float = false.
Proof.
  rewrite is_finite_spec, FloatAxioms.ltb_spec. unfold SFltb.
  destruct (Prim2SF v) as [[|] | [|] | | [|] m e] eqn:E; try discriminate; intros _;
    rewrite SFcompare_refl by discriminate; reflexivity.
Qed.

Lemma finite_not_NaN (v : number) : is_finite v = true → isNaN v = false.
Proof.
  rewrite is_finite_spec, isNaN_spec. by destruct (Prim2SF v).
Qed.

Lemma finite_one_zero (v : number) : is_pos_zero v && is_neg_zero v = false.
Proof.
  rewrite is_pos_zero_spec, is_neg_zero_spec.
  by destruct (Prim2SF v) as [[|] | [|] | | [|] m e].
Qed.

(** The maximum and the minimum of a list that repeats one finite number. *)
Lemma Math_max_from_constant (v : number) (vs : list number) :
  is_finite v = true → (∀ u, u ∈ vs → u = v) → Math_max_from v vs = v.
Proof.
  intros Hfin. induction vs as [| u vs IH]; intros Hall; simpl; [reflexivity |].
  rewrite (Hall u) by set_solver.
  rewrite (finite_not_NaN v Hfin), (finite_one_zero v), (ltb_irrefl_finite v Hfin).
  apply IH. intros u' Hu'. apply Hall. set_solver.
Qed.

Lemma Math_min_from_constant (v : number) (vs : list number) :
  is_finite v = true → (∀ u, u ∈ vs → u = v) → Math_min_from v vs = v.
Proof.
  intros Hfin. induction vs as [| u vs IH]; intros Hall; simpl; [reflexivity |].
  rewrite (Hall u) by set_solver.
  rewrite (finite_not_NaN v Hfin), (ltb_irrefl_finite v Hfin).
  replace (is_neg_zero v && is_pos_zero v) with false
    by (symmetry; rewrite andb_comm; apply finite_one_zero).
  apply IH. intros u' Hu'. apply Hall. set_solver.
Qed.

Lemma Math_max_constant (v : number) (vs : list number) :
  is_finite v = true → vs ≠ [] → (∀ u, u ∈ vs → u = v) → Math_max vs = v.
Proof.
  intros Hfin Hne Hall. destruct vs as [| u vs]; [done |].
  assert (Hu : u = v) by (apply Hall; set_solver). subst u.
  unfold Math_max. simpl. rewrite (finite_not_NaN v Hfin).
  assert (Hlt : (neg_infinity <? v)%float = true).
  { rewrite FloatAxioms.ltb_spec. rewrite is_finite_spec in Hfin.
    change (Prim2SF neg_infinity) with (S754_infinity true).
    by destruct (Prim2SF v) as [[|] | [|] | | [|] m e]. }
  rewrite Hlt.
  replace (is_pos_zero v && is_neg_zero neg_infinity) with false
    by (symmetry; apply andb_false_r).
  apply Math_max_from_constant; [exact Hfin |]. intros u' Hu'. apply Hall. set_solver.
Qed.

Lemma Math_min_constant (v : number) (vs : list number) :
  is_finite v = true → vs ≠ [] → (∀ u, u ∈ vs → u = v) → Math_min vs = v.
Proof.
  intros Hfin Hne Hall. destruct vs as [| u vs]; [done |].
  assert (Hu : u = v) by (apply Hall; set_solver). subst u.
  unfold Math_min. simpl. rewrite (finite_not_NaN v Hfin).
  assert (Hlt : (v <? infinity)%float = true).
  { rewrite FloatAxioms.ltb_spec. rewrite is_finite_spec in Hfin.
    change (Prim2SF infinity) with (S754_infinity false).
    by destruct (Prim2SF v) as [[|] | [|] | | [|] m e]. }
  rewrite Hlt.
  replace (is_neg_zero v && is_pos_zero infinity) with false
    by (symmetry; apply andb_false_r).
  apply Math_min_from_constant; [exact Hfin |]. intros u' Hu'. apply Hall. set_solver.
Qed.

(** [v - v] is [+0] for a finite [v]. *)
Lemma sub_diag_finite (v : number) : is_finite v = true → (v - v)%float = 0%float.
Proof.
  intros Hfin. rewrite is_finite_spec in Hfin. apply Prim2SF_inj.
  rewrite sub_spec. change (Prim2SF 0) with (S754_zero false).
  unfold SF64sub, SFsub.
  destruct (Prim2SF v) as [[|] | [|] | | s m e]; try discriminate; try reflexivity.
  by rewrite Z.sub_diag.
Qed.

Lemma NaN_mul (m : number) : (NaN * m)%float = NaN.
Proof.
  apply Prim2SF_inj. rewrite mul_spec.
  change (Prim2SF NaN) with S754_nan. reflexivity.
Qed.

(** C8. When all the points share one finite x-coordinate, [totalRange] is
    0 and nothing guards the division: for a relayout event whose two bounds
    coincide the quotient is 0/0, so [relativeZoom] and the level that
    [handleRelayout] stores are both NaN. *)
Theorem zero_range_zoom_is_NaN (props : Props) (st : State) (v w : number) :
  embeddings props ≠ [] →
  (∀ pt, pt ∈ embeddings props → x pt = v) →
  is_finite v = true →
  is_finite w = true →
  totalRange (embeddings props) = 0%float
  ∧ ClusterPlot.relativeZoom (totalRange (embeddings props)) w w = NaN
  ∧ currentLevel
      (handleRelayout props {| xaxis_range_0 := Some w; xaxis_range_1 := Some w |} st) = NaN.
Proof.
  intros Hne Hsame Hv Hw.
  assert (Hxs : ∀ u, u ∈ map x (embeddings props) → u = v).
  { intros u Hu. apply list_elem_of_In, in_map_iff in Hu as (pt & <- & Hpt).
    apply Hsame. by apply list_elem_of_In. }
  assert (Hxs_ne : map x (embeddings props) ≠ []).
  { destruct (embeddings props); [done | discriminate]. }
  assert (HT : totalRange (embeddings props) = 0%float).
  { unfold totalRange, x_extent.
    rewrite (Math_max_constant v _ Hv Hxs_ne Hxs), (Math_min_constant v _ Hv Hxs_ne Hxs).
    by apply sub_diag_finite. }
  assert (Hzoom : ClusterPlot.relativeZoom 0 w w = NaN).
  { unfold ClusterPlot.relativeZoom. rewrite (sub_diag_finite w Hw). vm_compute. reflexivity. }
  split; [exact HT |]. rewrite HT. split; [exact Hzoom |].
  unfold handleRelayout. simpl. rewrite HT, Hzoom, NaN_mul. vm_compute. reflexivity.
Qed.

Lemma zero_range_zoom_is_NaN_witness :
  totalRange (embeddings (with_defaults Samples.constructor_cluster)) = 0%float
  ∧ currentLevel
      (handleRelayout (with_defaults Samples.constructor_cluster)
         {| xaxis_range_0 := Some 2%float; xaxis_range_1 := Some 2%float |} initial) = NaN.
Proof.
  assert (Hne : embeddings (with_defaults Samples.constructor_cluster) ≠ []) by discriminate.
  assert (Hsame : ∀ pt, pt ∈ embeddings (with_defaults Samples.constructor_cluster)
                        → x pt = 0%float).
  { intros pt Hpt. apply list_elem_of_singleton in Hpt. by subst pt. }
  destruct (zero_range_zoom_is_NaN (with_defaults Samples.constructor_cluster) initial 0 2
              Hne Hsame eq_refl eq_refl) as (HT & _ & Hlevel).
  split; [exact HT | exact Hlevel].
Defined.

(** For the other events on a zero range the quotient is an infinity, which
    the clamp brings back to 0 (a range that grows to the right) or to 1. *)
Lemma zero_range_zoom_clamped (x0 x1 : number) :
  ((0 <? x1 - x0)%float = true → ClusterPlot.relativeZoom 0 x0 x1 = 0%float)
  ∧ ((x1 - x0 <? 0)%float = true → ClusterPlot.relativeZoom 0 x0 x1 = 1%float).
Proof.
  unfold ClusterPlot.relativeZoom. rewrite clamp_agrees. unfold clamp.
  generalize (x1 - x0)%float. intros c.
  rewrite !FloatAxioms.ltb_spec, !FloatAxioms.leb_spec, div_spec, sub_spec.
  change (Prim2SF 0) with (S754_zero false).
  change (Prim2SF 1) with (S754_finite false 4503599627370496 (-52)).
  destruct (Prim2SF c) as [[|] | [|] | | [|] m e]; split; intros H;
    try discriminate H; reflexivity.
Qed.

(** ** Rounding and order

    What is needed of binary64 arithmetic to bound the level: a product with
    a factor in [[0, 1]] does not exceed the other factor, [Math.floor] does
    not increase a positive number, and subtraction and division of finite
    numbers (by a non-zero divisor) do not produce NaN. *)

Section Rounding.
Local Open Scope Z_scope.

(** *** The number of binary digits of a mantissa *)

Lemma digits2_pos_bounds (m : positive) :
  2 ^ (Zpos (digits2_pos m) - 1) <= Zpos m < 2 ^ Zpos (digits2_pos m).
Proof.
  induction m as [m IH | m IH |]; simpl digits2_pos.
  - rewrite Pos2Z.inj_succ. change (Zpos m~1) with (2 * Zpos m + 1).
    replace (Z.succ (Zpos (digits2_pos m)) - 1) with (Z.succ (Zpos (digits2_pos m) - 1)) by lia.
    rewrite !Z.pow_succ_r by lia.
    revert IH. generalize (2 ^ (Zpos (digits2_pos m) - 1)) (2 ^ Zpos (digits2_pos m)). intros; lia.
  - rewrite Pos2Z.inj_succ. change (Zpos m~0) with (2 * Zpos m).
    replace (Z.succ (Zpos (digits2_pos m)) - 1) with (Z.succ (Zpos (digits2_pos m) - 1)) by lia.
    rewrite !Z.pow_succ_r by lia.
    revert IH. generalize (2 ^ (Zpos (digits2_pos m) - 1)) (2 ^ Zpos (digits2_pos m)). intros; lia.
  - simpl. lia.
Qed.

Lemma digits2_pos_unique (m : positive) (d : Z) :
  2 ^ (d - 1) <= Zpos m < 2 ^ d → Zpos (digits2_pos m) = d.
Proof.
  intros [Hlo Hhi]. pose proof (digits2_pos_bounds m) as [Hlo' Hhi'].
  set (d' := Zpos (digits2_pos m)) in *.
  assert (Hd' : 1 <= d') by (unfold d'; lia).
  destruct (Z.lt_trichotomy d d') as [Hlt | [Heq | Hgt]]; [| by symmetry |].
  - assert (0 <= d) by (destruct (Z.le_gt_cases 0 d); [done |]; rewrite Z.pow_neg_r in Hhi; lia).
    assert (2 ^ d <= 2 ^ (d' - 1)) by (apply Z.pow_le_mono_r; lia). lia.
  - assert (2 ^ d' <= 2 ^ (d - 1)) by (apply Z.pow_le_mono_r; lia). lia.
Qed.

Lemma digits2_pos_le (m1 m2 : positive) :
  Zpos m1 <= Zpos m2 → Zpos (digits2_pos m1) <= Zpos (digits2_pos m2).
Proof.
  intros Hle. pose proof (digits2_pos_bounds m1) as [Hlo1 _].
  pose proof (digits2_pos_bounds m2) as [_ Hhi2].
  destruct (Z.le_gt_cases (Zpos (digits2_pos m1)) (Zpos (digits2_pos m2))) as [| Hgt]; [done |].
  assert (2 ^ Zpos (digits2_pos m2) <= 2 ^ (Zpos (digits2_pos m1) - 1))
    by (apply Z.pow_le_mono_r; lia).
  lia.
Qed.

Lemma digits2_pos_shift (m p : positive) (k : Z) :
  0 <= k → Zpos p = Zpos m * 2 ^ k → Zpos (digits2_pos p) = Zpos (digits2_pos m) + k.
Proof.
  intros Hk Hp. apply digits2_pos_unique. rewrite Hp.
  pose proof (digits2_pos_bounds m) as [Hlo Hhi].
  replace (Zpos (digits2_pos m) + k - 1) with ((Zpos (digits2_pos m) - 1) + k) by lia.
  rewrite !Z.pow_add_r by lia.
  assert (0 < 2 ^ k) by (apply Z.pow_pos_nonneg; lia).
  split; nia.
Qed.

(** *** Shifting a mantissa right

    [n] steps of [shr_1] divide the mantissa by [2^n]; from an exact start the
    round and sticky bits are both clear exactly when nothing was lost. *)

(** [iter_pos] of SpecFloat is [Pos.iter]. *)
Lemma iter_pos_iter {A : Type} (f : A → A) (p : positive) (a : A) :
  SpecFloat.iter_pos f p a = Pos.iter f a p.
Proof.
  revert a. induction p as [p IH | p IH |]; intros a; simpl.
  - rewrite !IH. rewrite <- !Pos.iter_swap. reflexivity.
  - rewrite !IH. reflexivity.
  - reflexivity.
Qed.

Lemma shr_1_spec (m : Z) (r s : bool) :
  0 <= m →
  shr_1 {| shr_m := m; shr_r := r; shr_s := s |}
  = {| shr_m := m / 2; shr_r := Z.odd m; shr_s := r || s |}.
Proof.
  intros Hm. destruct m as [| [p | p |] | p]; try lia; unfold shr_1.
  - reflexivity.
  - f_equal. change (Zpos p~1) with (2 * Zpos p + 1).
    apply Z.div_unique with (r := 1); lia.
  - f_equal. change (Zpos p~0) with (2 * Zpos p).
    apply Z.div_unique with (r := 0); lia.
  - reflexivity.
Qed.

Lemma even_split (pn m0 : Z) :
  0 < pn →
  (m0 mod (2 * pn) = 0 ↔ m0 mod pn = 0 ∧ Z.odd (m0 / pn) = false).
Proof.
  intros Hpn.
  pose proof (Z.div_mod m0 pn ltac:(lia)) as Hdm.
  pose proof (Z.mod_pos_bound m0 pn Hpn) as Hrem.
  set (m := m0 / pn) in *. set (rem := m0 mod pn) in *.
  pose proof (Zmod_odd m) as Hodd.
  pose proof (Z.div_mod m 2 ltac:(lia)) as Hm2.
  pose proof (Z.mod_pos_bound m 2 ltac:(lia)) as Hm2b.
  assert (Hmod : m0 mod (2 * pn) = pn * (m mod 2) + rem).
  { symmetry. apply Z.mod_unique with (q := m / 2); [left; nia | nia]. }
  rewrite Hmod. destruct (Z.odd m); split.
  - intros. nia.
  - intros [_ ?]. discriminate.
  - intros. split; [nia | reflexivity].
  - intros [? _]. nia.
Qed.

Lemma shr_iter_spec (m0 : Z) (l : location) (n : positive) :
  0 <= m0 →
  shr_m (Pos.iter shr_1 (shr_record_of_loc m0 l) n) = m0 / 2 ^ Zpos n
  ∧ (l = loc_Exact →
     (shr_r (Pos.iter shr_1 (shr_record_of_loc m0 l) n)
      || shr_s (Pos.iter shr_1 (shr_record_of_loc m0 l) n) = false
      ↔ m0 mod 2 ^ Zpos n = 0)).
Proof.
  intros Hm0. induction n as [| n IH] using Pos.peano_ind.
  - simpl Pos.iter.
    assert (Hinit : ∃ r s, shr_record_of_loc m0 l = {| shr_m := m0; shr_r := r; shr_s := s |}
                           ∧ (l = loc_Exact → r = false ∧ s = false)).
    { destruct l as [| []]; simpl; eauto 6. 
      all: do 2 eexists; split; [reflexivity | discriminate]. }
    destruct Hinit as (r & s & -> & Hexact).
    rewrite shr_1_spec by exact Hm0. simpl. split; [reflexivity |].
    intros Hl. destruct (Hexact Hl) as [-> ->]. simpl.
    change (2 ^ 1) with 2. rewrite Zmod_odd. destruct (Z.odd m0); simpl; split; congruence.
  - rewrite Pos.iter_succ.
    destruct (Pos.iter shr_1 (shr_record_of_loc m0 l) n) as [m r s].
    simpl in IH. destruct IH as [IHm IHflag].
    assert (Hpn : 0 < 2 ^ Zpos n) by (apply Z.pow_pos_nonneg; lia).
    assert (Hm : 0 <= m) by (subst m; apply Z.div_pos; lia).
    rewrite shr_1_spec by exact Hm. simpl.
    rewrite Pos2Z.inj_succ, Z.pow_succ_r by lia. split.
    + subst m. rewrite Z.div_div by lia. f_equal. lia.
    + intros Hl. rewrite (even_split (2 ^ Zpos n) m0 Hpn), <- IHm, <- (IHflag Hl).
      destruct (Z.odd m), r, s; simpl; intuition congruence.
Qed.

(** The first component of [shr_fexp], and [binary_round_aux] as a whole:
    shift, round to nearest even, shift again, pack. *)
Lemma shr_fexp_spec (m e : Z) (l : location) :
  0 <= m →
  ∃ rec, shr_fexp prec emax m e l = (rec, e + shift_of m e)
         ∧ shr_m rec = m / 2 ^ shift_of m e
         ∧ (l = loc_Exact → m mod 2 ^ shift_of m e = 0 → loc_of_shr_record rec = loc_Exact).
Proof.
  intros Hm. unfold shr_fexp, shift_of, shr.
  destruct (fexp prec emax (Zdigits2 m + e) - e) as [| n | n] eqn:En.
  - eexists. split; [f_equal; lia |]. simpl. rewrite Z.div_1_r. split; [by destruct l as [| []] |].
    intros ->. reflexivity.
  - rewrite iter_pos_iter. eexists. split; [f_equal; lia |].
    replace (Z.max 0 (Zpos n)) with (Zpos n) by lia.
    destruct (shr_iter_spec m l n Hm) as [H1 H2]. split; [exact H1 |].
    intros Hl Hmod. apply (H2 Hl) in Hmod.
    destruct (Pos.iter shr_1 (shr_record_of_loc m l) n) as [m' [|] [|]]; simpl in *;
      congruence.
  - eexists. split; [f_equal; lia |]. simpl. rewrite Z.div_1_r. split; [by destruct l as [| []] |].
    intros ->. reflexivity.
Qed.

Lemma round_nearest_even_bounds (m : Z) (l : location) :
  m <= round_nearest_even m l <= m + 1 ∧ (l = loc_Exact → round_nearest_even m l = m).
Proof.
  destruct l as [| []]; simpl; try (destruct (Z.even m)); split; try lia; try discriminate; auto.
Qed.

Lemma binary_round_aux_spec (s : bool) (mx ex : Z) (lx : location) :
  0 <= mx →
  ∃ m1, mx / 2 ^ shift_of mx ex <= m1 <= mx / 2 ^ shift_of mx ex + 1
        ∧ (lx = loc_Exact → mx mod 2 ^ shift_of mx ex = 0 → m1 = mx / 2 ^ shift_of mx ex)
        ∧ binary_round_aux prec emax s mx ex lx
          = pack s (m1 / 2 ^ shift_of m1 (ex + shift_of mx ex))
                   (ex + shift_of mx ex + shift_of m1 (ex + shift_of mx ex)).
Proof.
  intros Hmx. unfold binary_round_aux.
  destruct (shr_fexp_spec mx ex lx Hmx) as (rec & -> & Hm & Hexact).
  pose proof (round_nearest_even_bounds (shr_m rec) (loc_of_shr_record rec)) as [Hb Hbe].
  set (m1 := round_nearest_even (shr_m rec) (loc_of_shr_record rec)) in *.
  assert (Hm1 : 0 <= m1).
  { assert (0 <= shr_m rec); [| lia]. rewrite Hm. apply Z.div_pos; [lia |].
    apply Z.pow_pos_nonneg; [lia |]. unfold shift_of. lia. }
  destruct (shr_fexp_spec m1 (ex + shift_of mx ex) loc_Exact Hm1) as (rec2 & -> & Hm2 & _).
  exists m1. rewrite <- Hm. split; [exact Hb |]. split.
  - intros Hl Hmod. apply Hbe. by apply Hexact.
  - rewrite Hm2. reflexivity.
Qed.

(** *** A product with a factor at most 1 *)

Lemma fexp_mono (a b : Z) : a <= b → fexp prec emax a <= fexp prec emax b.
Proof. unfold fexp. lia. Qed.

Lemma Zdigits2_le_shift (m : Z) (mm : positive) (k : Z) :
  0 <= k → 0 < m → m <= Zpos mm * 2 ^ k → Zdigits2 m <= Zpos (digits2_pos mm) + k.
Proof.
  intros Hk Hm Hle. destruct m as [| p | p]; try lia. simpl.
  assert (Hpos : 0 < Zpos mm * 2 ^ k) by (apply Z.mul_pos_pos; [lia | apply Z.pow_pos_nonneg; lia]).
  rewrite <- (digits2_pos_shift mm (Z.to_pos (Zpos mm * 2 ^ k)) k Hk) by (rewrite Z2Pos.id; lia).
  apply digits2_pos_le. rewrite Z2Pos.id; lia.
Qed.

Lemma canonical_fexp (mm : positive) (em : Z) :
  canonical_mantissa prec emax mm em = true → fexp prec emax (Zpos (digits2_pos mm) + em) = em.
Proof. unfold canonical_mantissa. intros H. by apply Z.eqb_eq in H. Qed.

Lemma pow2_split (a b : Z) : 0 <= a → 0 <= b → 2 ^ (a + b) = 2 ^ a * 2 ^ b.
Proof. intros. apply Z.pow_add_r; lia. Qed.

Lemma round_up_bounded (mx K k m1 : Z) :
  0 <= k → 0 <= mx → mx <= K * 2 ^ k →
  mx / 2 ^ k <= m1 <= mx / 2 ^ k + 1 →
  (mx mod 2 ^ k = 0 → m1 = mx / 2 ^ k) →
  m1 <= K.
Proof.
  intros Hk Hmx Hle Hm1 Hexact.
  assert (Hp : 0 < 2 ^ k) by (apply Z.pow_pos_nonneg; lia).
  pose proof (Z.div_mod mx (2 ^ k) ltac:(lia)) as Hdm.
  pose proof (Z.mod_pos_bound mx (2 ^ k) Hp) as Hrem.
  destruct (Z.eq_dec (mx mod 2 ^ k) 0) as [Hz | Hnz].
  - rewrite (Hexact Hz). nia.
  - assert (mx / 2 ^ k < K) by nia. lia.
Qed.

(** The rounded product of [mr * 2^er <= 1] and a canonical [mm * 2^em] is a
    zero or a positive finite number that is at most [mm * 2^em]: neither
    shift takes the exponent beyond [em], and rounding up stops at the multiple
    of the unit that [mm * 2^em] is. *)
Lemma mul_bounded (mr mm : positive) (er em : Z) :
  er <= 0 → Zpos mr <= 2 ^ (- er) →
  canonical_mantissa prec emax mm em = true → em <= emax - prec →
  binary_round_aux prec emax false (Zpos (mr * mm)) (er + em) loc_Exact = S754_zero false
  ∨ ∃ p e, binary_round_aux prec emax false (Zpos (mr * mm)) (er + em) loc_Exact
           = S754_finite false p e
           ∧ (e < em ∨ (e = em ∧ Zpos p <= Zpos mm)).
Proof.
  intros Her Hmr Hcan Hem.
  pose proof (canonical_fexp mm em Hcan) as Hfexp.
  set (mx := Zpos (mr * mm)). set (ex := er + em).
  assert (Hmx : 0 < mx) by (unfold mx; lia).
  assert (Hmx_le : mx <= Zpos mm * 2 ^ (- er)) by (unfold mx; rewrite Pos2Z.inj_mul; nia).
  destruct (binary_round_aux_spec false mx ex loc_Exact ltac:(lia)) as (m1 & Hm1 & Hexact & ->).
  set (k1 := shift_of mx ex) in *. set (e1 := ex + k1) in *.
  set (k2 := shift_of m1 e1). set (e2 := e1 + k2).
  assert (Hk1 : 0 <= k1) by (unfold k1, shift_of; lia).
  assert (Hk2 : 0 <= k2) by (unfold k2, shift_of; lia).
  (* the exponent after the first shift does not exceed [em] *)
  assert (He1 : e1 <= em).
  { unfold e1, k1, shift_of.
    pose proof (Zdigits2_le_shift mx mm (- er) ltac:(lia) Hmx Hmx_le).
    pose proof (fexp_mono (Zdigits2 mx + ex) (Zpos (digits2_pos mm) + em) ltac:(unfold ex; lia)).
    unfold ex in *. lia. }
  set (K := Zpos mm * 2 ^ (em - e1)).
  assert (HmxK : mx <= K * 2 ^ k1).
  { unfold K. rewrite <- Z.mul_assoc, <- pow2_split by lia.
    replace (em - e1 + k1) with (- er) by (unfold e1, ex; lia). exact Hmx_le. }
  assert (Hm1K : m1 <= K) by (apply (round_up_bounded mx K k1 m1); auto; lia).
  assert (Hm1pos : 0 <= m1).
  { assert (0 <= mx / 2 ^ k1) by (apply Z.div_pos; [lia | apply Z.pow_pos_nonneg; lia]). lia. }
  assert (Hp2 : 0 < 2 ^ k2) by (apply Z.pow_pos_nonneg; lia).
  assert (Hm2 : 0 <= m1 / 2 ^ k2) by (apply Z.div_pos; lia).
  destruct (Z.eq_dec m1 0) as [Hz | Hnz].
  { left. rewrite Hz. rewrite Z.div_0_l by lia. reflexivity. }
  (* the exponent after the second shift does not exceed [em] either *)
  assert (He2 : e2 <= em).
  { unfold e2, k2, shift_of.
    pose proof (Zdigits2_le_shift m1 mm (em - e1) ltac:(lia) ltac:(lia) Hm1K).
    pose proof (fexp_mono (Zdigits2 m1 + e1) (Zpos (digits2_pos mm) + em) ltac:(lia)).
    lia. }
  fold k2. fold e2.
  destruct (m1 / 2 ^ k2) as [| p | p] eqn:Ep; [by left | | lia].
  right. exists p, e2. unfold pack.
  destruct (Z.leb_spec e2 (emax - prec)) as [_ | Hgt]; [| lia].
  split; [reflexivity |].
  destruct (Z.eq_dec e2 em) as [Heq | Hne]; [right | left; lia].
  split; [exact Heq |].
  assert (Hk2' : k2 = em - e1) by (unfold e2 in Heq; lia).
  rewrite <- Ep, Hk2'. apply Z.div_le_upper_bound; [apply Z.pow_pos_nonneg; lia |].
  unfold K in Hm1K. lia.
Qed.

(** *** Operations that do not produce NaN *)

Lemma pack_not_NaN (s : bool) (m e : Z) : 0 <= m → pack s m e ≠ S754_nan.
Proof.
  intros Hm. unfold pack. destruct m as [| p | p]; try lia; [discriminate |].
  destruct (e <=? emax - prec); discriminate.
Qed.

Lemma binary_round_aux_not_NaN (s : bool) (mx ex : Z) (lx : location) :
  0 <= mx → binary_round_aux prec emax s mx ex lx ≠ S754_nan.
Proof.
  intros Hmx. destruct (binary_round_aux_spec s mx ex lx Hmx) as (m1 & Hm1 & _ & ->).
  apply pack_not_NaN. apply Z.div_pos.
  - assert (0 <= mx / 2 ^ shift_of mx ex); [| lia].
    apply Z.div_pos; [lia | apply Z.pow_pos_nonneg; [lia | unfold shift_of; lia]].
  - apply Z.pow_pos_nonneg; [lia | unfold shift_of; lia].
Qed.

Lemma binary_normalize_not_NaN (m e : Z) (s : bool) :
  binary_normalize prec emax m e s ≠ S754_nan.
Proof.
  unfold binary_normalize, binary_round. destruct m as [| p | p]; [discriminate | |].
  - destruct (shl_align p e _) as [mz ez]. apply binary_round_aux_not_NaN. lia.
  - destruct (shl_align p e _) as [mz ez]. apply binary_round_aux_not_NaN. lia.
Qed.

Lemma SFsub_not_NaN (a b : spec_float) :
  (∀ s, a ≠ S754_infinity s) → a ≠ S754_nan → b ≠ S754_nan → SF64sub a b ≠ S754_nan.
Proof.
  intros Ha Ha' Hb. unfold SF64sub, SFsub.
  destruct a as [sa | sa | | sa ma ea]; try congruence.
  - destruct b as [sb | sb | | sb mb eb]; try congruence; try discriminate.
    destruct sa, sb; discriminate.
  - destruct b as [sb | sb | | sb mb eb]; try congruence; try discriminate.
    apply binary_normalize_not_NaN.
Qed.

Lemma SFdiv_not_NaN (a : spec_float) (s : bool) (m : positive) (e : Z) :
  a ≠ S754_nan → SF64div a (S754_finite s m e) ≠ S754_nan.
Proof.
  intros Ha. unfold SF64div, SFdiv.
  destruct a as [sa | sa | | sa ma ea]; try congruence; try discriminate.
  unfold SFdiv_core_binary.
  set (m' := match _ - _ - _ with Z0 => _ | Zpos _ => _ | Zneg _ => _ end).
  assert (Hm' : 0 <= m').
  { unfold m'. destruct (_ - _ - _) as [| k | k]; try lia. apply Z.shiftl_nonneg. lia. }
  pose proof (Z_div_mod_eq_full m' (Zpos m)) as Heq.
  unfold Z.div, Z.modulo in Heq.
  assert (Hq : 0 <= m' / Zpos m) by (apply Z.div_pos; lia).
  unfold Z.div in Hq.
  destruct (Z.div_eucl m' (Zpos m)) as [q r]. simpl in Hq.
  apply binary_round_aux_not_NaN. exact Hq.
Qed.

(** *** The order of positive finite numbers *)

Lemma SFleb_finite_iff (p mm : positive) (e em : Z) :
  SFleb (S754_finite false p e) (S754_finite false mm em) = true
  ↔ (e < em ∨ (e = em ∧ Zpos p <= Zpos mm)).
Proof.
  unfold SFleb, SFcompare. fold (Pos.compare p mm).
  destruct (Z.compare_spec e em) as [He | He | He];
    [destruct (Pos.compare_spec p mm) as [Hp | Hp | Hp] | |];
    (split; [intros H; try discriminate; lia | intros H; try reflexivity; lia]).
Qed.

(** A number that is at least 0 and finite. *)
Lemma nonneg_finite_cases (m : number) :
  (0 <=? m)%float = true → is_finite m = true →
  (∃ s, Prim2SF m = S754_zero s) ∨ (∃ mm em, Prim2SF m = S754_finite false mm em).
Proof.
  rewrite FloatAxioms.leb_spec, is_finite_spec.
  change (Prim2SF 0) with (S754_zero false).
  destruct (Prim2SF m) as [s | s | | [|] mm em]; try discriminate; eauto.
Qed.

Lemma valid_finite (v : number) (s : bool) (m : positive) (e : Z) :
  Prim2SF v = S754_finite s m e →
  canonical_mantissa prec emax m e = true ∧ e <= emax - prec.
Proof.
  intros E. pose proof (Prim2SF_valid v) as Hv. rewrite E in Hv. simpl in Hv.
  unfold bounded in Hv. apply andb_prop in Hv as [Hc He]. split; [exact Hc |].
  by apply Z.leb_le.
Qed.

(** The clamp of a number that is not NaN is [+0] or a positive finite number
    at most 1. *)
Lemma clamp_cases (q : number) :
  Prim2SF q ≠ S754_nan →
  Prim2SF (clamp q 0 1) = S754_zero false
  ∨ ∃ mr er, Prim2SF (clamp q 0 1) = S754_finite false mr er
             ∧ SFleb (S754_finite false mr er) (Prim2SF 1) = true.
Proof.
  intros Hq. unfold clamp. rewrite !FloatAxioms.leb_spec.
  assert (Hzero : Prim2SF 0 = S754_zero false) by reflexivity.
  assert (Hone : Prim2SF 1 = S754_finite false 4503599627370496 (-52)) by reflexivity.
  rewrite Hzero, Hone.
  destruct (Prim2SF q) as [s | [|] | | [|] m e] eqn:E; try congruence.
  - left. exact Hzero.
  - left. exact Hzero.
  - right. change (SFleb (S754_infinity false) (S754_zero false)) with false.
    change (SFleb (S754_finite false 4503599627370496 (-52)) (S754_infinity false)) with true.
    cbv iota. rewrite Hone. do 2 eexists. split; reflexivity.
  - left. exact Hzero.
  - right. change (SFleb (S754_finite false m e) (S754_zero false)) with false. cbv iota.
    destruct (SFleb (S754_finite false 4503599627370496 (-52)) (S754_finite false m e)) eqn:L.
    + rewrite Hone. do 2 eexists. split; reflexivity.
    + rewrite E. do 2 eexists. split; [reflexivity |].
      apply SFleb_finite_iff.
      destruct (Z.lt_trichotomy e (-52)) as [? | [? | ?]]; [by left | right | exfalso].
      * split; [done |].
        destruct (Z.le_gt_cases (Zpos m) 4503599627370496) as [| Hgt]; [done | exfalso].
        assert (SFleb (S754_finite false 4503599627370496 (-52)) (S754_finite false m e) = true)
          by (apply SFleb_finite_iff; right; split; lia).
        congruence.
      * assert (SFleb (S754_finite false 4503599627370496 (-52)) (S754_finite false m e) = true)
          by (apply SFleb_finite_iff; left; lia).
        congruence.
Qed.

Lemma at_most_one (v : number) (mr : positive) (er : Z) :
  Prim2SF v = S754_finite false mr er →
  SFleb (S754_finite false mr er) (Prim2SF 1) = true →
  er <= 0 ∧ Zpos mr <= 2 ^ (- er).
Proof.
  intros E Hle. change (Prim2SF 1) with (S754_finite false 4503599627370496 (-52)) in Hle.
  apply SFleb_finite_iff in Hle.
  destruct (valid_finite v false mr er E) as [Hcan _].
  apply canonical_fexp in Hcan. unfold fexp in Hcan.
  pose proof (digits2_pos_bounds mr) as [_ Hhi].
  destruct Hle as [Hlt | [-> Hm]].
  - split; [lia |].
    assert (Hd : Zpos (digits2_pos mr) <= 53) by (unfold prec in Hcan; lia).
    assert (2 ^ Zpos (digits2_pos mr) <= 2 ^ (- er)) by (apply Z.pow_le_mono_r; lia).
    lia.
  - split; [lia |]. simpl. exact Hm.
Qed.

(** The product of a number in [[0, 1]] with a finite [m >= 0]: a zero, or a
    positive finite number at most [m]. *)
Lemma scaled_cases (r m : number) :
  (Prim2SF r = S754_zero false
   ∨ ∃ mr er, Prim2SF r = S754_finite false mr er
              ∧ SFleb (S754_finite false mr er) (Prim2SF 1) = true) →
  (0 <=? m)%float = true → is_finite m = true →
  (∃ s, Prim2SF (r * m)%float = S754_zero s)
  ∨ ∃ p e, Prim2SF (r * m)%float = S754_finite false p e
           ∧ SFleb (S754_finite false p e) (Prim2SF m) = true.
Proof.
  intros Hr Hm Hfin. rewrite mul_spec. unfold SF64mul, SFmul.
  destruct (nonneg_finite_cases m Hm Hfin) as [[s Em] | (mm & em & Em)].
  - left. rewrite Em. destruct Hr as [-> | (mr & er & -> & _)]; eauto.
  - destruct Hr as [-> | (mr & er & Er & Hle)]; rewrite Em; [left; eauto |].
    destruct (at_most_one r mr er Er Hle) as [Her Hmr].
    destruct (valid_finite m false mm em Em) as [Hcan Hem].
    rewrite Er. cbn [xorb].
    destruct (mul_bounded mr mm er em Her Hmr Hcan Hem) as [-> | (p & e & -> & Hlex)].
    + left. eauto.
    + right. exists p, e. split; [reflexivity |]. by apply SFleb_finite_iff.
Qed.

(** [Math.floor] of a positive finite number: [+0], or a positive finite
    number with the same exponent and a mantissa that is not larger. *)
Lemma Math_floor_positive (v : number) (p : positive) (e : Z) :
  Prim2SF v = S754_finite false p e →
  Prim2SF (Math_floor v) = S754_zero false
  ∨ ∃ p', Prim2SF (Math_floor v) = S754_finite false p' e ∧ Zpos p' <= Zpos p.
Proof.
  intros E. destruct (valid_finite v false p e E) as [Hcan He].
  unfold Math_floor. rewrite E.
  destruct (Z.leb_spec 0 e) as [Hpos | Hneg].
  { right. exists p. split; [exact E | lia]. }
  cbn [andb cond_Zopp].
  rewrite Z.shiftr_div_pow2, Z.shiftl_mul_pow2 by lia.
  set (k := - e). set (q := Zpos p / 2 ^ k).
  assert (Hk : 0 < 2 ^ k) by (apply Z.pow_pos_nonneg; lia).
  assert (Hq : 0 <= q) by (apply Z.div_pos; lia).
  pose proof (Z.div_mod (Zpos p) (2 ^ k) ltac:(lia)) as Hdm. fold q in Hdm.
  pose proof (Z.mod_pos_bound (Zpos p) (2 ^ k) Hk) as Hrem.
  destruct (q * 2 ^ k) as [| p' | p'] eqn:Ep'; [| | nia].
  { left. reflexivity. }
  right. exists p'.
  assert (Hle : Zpos p' <= Zpos p) by nia.
  split; [| exact Hle].
  (* the digits of [p'] are those of [p] *)
  pose proof (digits2_pos_bounds p) as [Hlo Hhi].
  set (d := Zpos (digits2_pos p)) in *.
  assert (Hq1 : 1 <= q) by nia.
  assert (Hkd : k < d).
  { destruct (Z.lt_ge_cases k d) as [| Hge]; [done | exfalso].
    assert (2 ^ d <= 2 ^ k) by (apply Z.pow_le_mono_r; lia). nia. }
  assert (Hdigits : Zpos (digits2_pos p') = d).
  { apply digits2_pos_unique. split; [| lia].
    replace (d - 1) with ((d - 1 - k) + k) in Hlo |- * by lia.
    rewrite pow2_split in Hlo |- * by lia.
    assert (2 ^ (d - 1 - k) <= q).
    { apply Z.div_le_lower_bound; [lia |]. rewrite Z.mul_comm. exact Hlo. }
    nia. }
  assert (Hcan' : canonical_mantissa prec emax p' e = true).
  { unfold canonical_mantissa in *. rewrite Hdigits. exact Hcan. }
  assert (Hvalid : valid_binary (S754_finite false p' e) = true).
  { simpl. unfold bounded. rewrite Hcan'. simpl. by apply Z.leb_le. }
  assert (Hnorm : binary_normalize prec emax (Zpos p') e false = S754_finite false p' e).
  { unfold binary_normalize, binary_round, shl_align.
    rewrite (canonical_fexp p' e Hcan'), Z.sub_diag.
    destruct (binary_round_aux_spec false (Zpos p') e loc_Exact ltac:(lia))
      as (m1 & Hm1 & Hexact & ->).
    assert (Hs : shift_of (Zpos p') e = 0).
    { unfold shift_of. simpl Zdigits2. rewrite (canonical_fexp p' e Hcan'). lia. }
    rewrite Hs in *. change (2 ^ 0) with 1 in *. rewrite Z.div_1_r in *.
    rewrite Hexact by (reflexivity || apply Z.mod_1_r).
    rewrite Z.add_0_r, Hs, Z.add_0_r. change (2 ^ 0) with 1. rewrite Z.div_1_r.
    unfold pack. destruct (Z.leb_spec e (emax - prec)); [reflexivity | lia]. }
  rewrite Hnorm. by apply Prim2SF_SF2Prim.
Qed.

(** *** The level stays within its bounds *)

Lemma finite_not_special (v : number) :
  is_finite v = true → (∀ s, Prim2SF v ≠ S754_infinity s) ∧ Prim2SF v ≠ S754_nan.
Proof.
  rewrite is_finite_spec. destruct (Prim2SF v); intros H; try discriminate; split; congruence.
Qed.

Lemma positive_finite (v : number) :
  (0 <? v)%float = true → is_finite v = true → ∃ m e, Prim2SF v = S754_finite false m e.
Proof.
  rewrite FloatAxioms.ltb_spec, is_finite_spec.
  change (Prim2SF 0) with (S754_zero false).
  destruct (Prim2SF v) as [s | s | | [|] m e]; try discriminate; eauto.
Qed.

(** The quotient of [relativeZoom] is a number when the bounds are finite
    and the total range is finite and positive. *)
Lemma zoom_quotient_not_NaN (T x0 x1 : number) :
  is_finite x0 = true → is_finite x1 = true →
  (0 <? T)%float = true → is_finite T = true →
  Prim2SF ((T - (x1 - x0)) / T)%float ≠ S754_nan.
Proof.
  intros H0 H1 HT HTfin.
  destruct (finite_not_special x0 H0) as [_ Hn0].
  destruct (finite_not_special x1 H1) as [Hi1 Hn1].
  destruct (finite_not_special T HTfin) as [HiT HnT].
  destruct (positive_finite T HT HTfin) as (mT & eT & ET).
  rewrite div_spec, sub_spec, sub_spec. rewrite ET at 2.
  apply SFdiv_not_NaN, SFsub_not_NaN; try assumption.
  by apply SFsub_not_NaN.
Qed.

Lemma within_unit (r : number) :
  (Prim2SF r = S754_zero false
   ∨ ∃ mr er, Prim2SF r = S754_finite false mr er
              ∧ SFleb (S754_finite false mr er) (Prim2SF 1) = true) →
  within 0 1 r.
Proof.
  unfold within. rewrite !FloatAxioms.leb_spec.
  change (Prim2SF 0) with (S754_zero false).
  intros [-> | (mr & er & -> & Hle)]; split; try reflexivity. exact Hle.
Qed.

Lemma floor_scaled_within (y m : number) :
  (0 <=? m)%float = true → is_finite m = true →
  ((∃ s, Prim2SF y = S754_zero s)
   ∨ ∃ p e, Prim2SF y = S754_finite false p e
            ∧ SFleb (S754_finite false p e) (Prim2SF m) = true) →
  within 0 m (Math_floor y).
Proof.
  intros Hm Hfin Hy. unfold within. rewrite !FloatAxioms.leb_spec.
  change (Prim2SF 0) with (S754_zero false).
  destruct (nonneg_finite_cases m Hm Hfin) as [[sm Em] | (mm & em & Em)]; rewrite Em in *.
  - destruct Hy as [[s Ey] | (p & e & Ey & Hle)]; [| discriminate].
    unfold Math_floor. rewrite Ey, Ey. split; reflexivity.
  - destruct Hy as [[s Ey] | (p & e & Ey & Hle)].
    + unfold Math_floor. rewrite Ey, Ey. split; reflexivity.
    + destruct (Math_floor_positive y p e Ey) as [-> | (p' & -> & Hp')]; split; try reflexivity.
      apply SFleb_finite_iff. apply SFleb_finite_iff in Hle. lia.
Qed.

(** A finite number other than zero divided by itself is 1. *)
Lemma div_diag_finite (v : number) (s : bool) (m : positive) (e : Z) :
  Prim2SF v = S754_finite s m e → (v / v)%float = 1%float.
Proof.
  intros E. apply Prim2SF_inj. rewrite div_spec, E.
  unfold SF64div, SFdiv, SFdiv_core_binary.
  replace (Zdigits2 (Zpos m) + e - (Zdigits2 (Zpos m) + e)) with 0 by lia.
  rewrite Z.sub_diag.
  change (Z.min (fexp prec emax 0) 0) with (-53).
  change (0 - -53) with 53.
  rewrite Z.shiftl_mul_pow2 by lia.
  assert (Hd : (Zpos m * 2 ^ 53) / Zpos m = 2 ^ 53) by (rewrite Z.mul_comm; apply Z.div_mul; lia).
  assert (Hr : (Zpos m * 2 ^ 53) mod Zpos m = 0) by (rewrite Z.mul_comm; apply Z.mod_mul; lia).
  unfold Z.div, Z.modulo in Hd, Hr.
  destruct (Z.div_eucl (Zpos m * 2 ^ 53) (Zpos m)) as [q r]. simpl in Hd, Hr. subst q r.
  assert (Hloc : new_location (Zpos m) 0 = loc_Exact).
  { unfold new_location, new_location_even, new_location_odd.
    destruct (Z.even (Zpos m)); reflexivity. }
  rewrite Hloc. destruct s; vm_compute; reflexivity.
Qed.

(** A range of width zero is the deepest zoom: [relativeZoom] is 1. *)
Lemma zoom_of_empty_range (T w : number) :
  is_finite w = true → (0 <? T)%float = true → is_finite T = true →
  ClusterPlot.relativeZoom T w w = 1%float.
Proof.
  intros Hw HT HTfin. destruct (positive_finite T HT HTfin) as (mT & eT & ET).
  unfold ClusterPlot.relativeZoom. rewrite (sub_diag_finite w Hw).
  assert (Hsub : (T - 0)%float = T).
  { apply Prim2SF_inj. rewrite sub_spec, ET. reflexivity. }
  rewrite Hsub, (div_diag_finite T false mT eT ET). vm_compute. reflexivity.
Qed.

(** C2 (as stated, refuted). A relayout event whose lower bound is NaN
    carries both bounds, and the total range of the four sample points is 3;
    the level that [handleRelayout] stores is NaN, which is not in
    [[0, maxLevel]]. *)
Lemma NaN_bound_counterexample :
  xaxis_range_0 (Samples.both_bounds NaN 1) = Some NaN
  ∧ xaxis_range_1 (Samples.both_bounds NaN 1) = Some 1%float
  ∧ (0 <? totalRange (embeddings (with_defaults Samples.two_pairs)))%float = true
  ∧ currentLevel
      (handleRelayout (with_defaults Samples.two_pairs) (Samples.both_bounds NaN 1) initial)
    = NaN
  ∧ (0 <=? currentLevel
             (handleRelayout (with_defaults Samples.two_pairs)
                (Samples.both_bounds NaN 1) initial))%float = false.
Proof. repeat split; vm_compute; reflexivity. Qed.

(** C2 (amended). For a relayout event whose two bounds are finite numbers,
    when the total range is finite and positive and [maxLevel] is a finite
    number that is at least 0, [relativeZoom] lies in [[0, 1]] and the level
    that [handleRelayout] stores lies in [[0, maxLevel]]; when the two bounds
    coincide, [relativeZoom] is 1. *)
Theorem level_within_bounds
    (props : Props) (event : PlotRelayoutEvent) (st : State) (x0 x1 : number) :
  xaxis_range_0 event = Some x0 →
  xaxis_range_1 event = Some x1 →
  is_finite x0 = true →
  is_finite x1 = true →
  (0 <? totalRange (embeddings props))%float = true →
  is_finite (totalRange (embeddings props)) = true →
  (0 <=? maxLevel props)%float = true →
  is_finite (maxLevel props) = true →
  within 0 1 (ClusterPlot.relativeZoom (totalRange (embeddings props)) x0 x1)
  ∧ within 0 (maxLevel props) (currentLevel (handleRelayout props event st))
  ∧ (x0 = x1 → ClusterPlot.relativeZoom (totalRange (embeddings props)) x0 x1 = 1%float).
Proof.
  intros E0 E1 H0 H1 HT HTfin Hm Hmfin.
  set (T := totalRange (embeddings props)) in *.
  assert (Hr : Prim2SF (ClusterPlot.relativeZoom T x0 x1) = S754_zero false
               ∨ ∃ mr er, Prim2SF (ClusterPlot.relativeZoom T x0 x1) = S754_finite false mr er
                          ∧ SFleb (S754_finite false mr er) (Prim2SF 1) = true).
  { unfold ClusterPlot.relativeZoom. rewrite clamp_agrees.
    apply clamp_cases. by apply zoom_quotient_not_NaN. }
  split; [by apply within_unit |]. split.
  - unfold handleRelayout. rewrite E0, E1. fold T. simpl.
    apply floor_scaled_within; try assumption.
    by apply scaled_cases.
  - intros <-. by apply zoom_of_empty_range.
Qed.

Lemma level_within_bounds_witness :
  within 0 1
    (ClusterPlot.relativeZoom (totalRange (embeddings (with_defaults Samples.two_pairs))) 1 2)
  ∧ within 0 (maxLevel (with_defaults Samples.two_pairs))
      (currentLevel
         (handleRelayout (with_defaults Samples.two_pairs) (Samples.both_bounds 1 2) initial)).
Proof.
  destruct (level_within_bounds (with_defaults Samples.two_pairs) (Samples.both_bounds 1 2)
              initial 1 2 eq_refl eq_refl eq_refl eq_refl eq_refl eq_refl eq_refl eq_refl)
    as (Hzoom & Hlevel & _).
  exact (conj Hzoom Hlevel).
Defined.

End Rounding.

(** ** More on the density filter *)

Lemma Number_toString_zero (v : number) (s : bool) :
  Prim2SF v = S754_zero s → Number_toString v = "0"%string.
Proof. intros E. unfold Number_toString. by rewrite E. Qed.

Lemma eqb_cases (v w : number) :
  (v =? w)%float = true →
  v = w ∨ ∃ s t, Prim2SF v = S754_zero s ∧ Prim2SF w = S754_zero t.
Proof.
  rewrite FloatAxioms.eqb_spec. unfold SFeqb. intros H.
  destruct (Prim2SF v) as [[|] | [|] | | [|] m e] eqn:Ev,
           (Prim2SF w) as [[|] | [|] | | [|] m' e'] eqn:Ew;
    try discriminate H; try (right; eauto; fail);
    try (left; apply Prim2SF_inj; rewrite Ev, Ew; reflexivity).
  all: left; apply Prim2SF_inj; rewrite Ev, Ew; unfold SFcompare in H;
    fold (Pos.compare m m') in H;
    destruct (Z.compare_spec e e') as [-> | |]; try discriminate H;
    destruct (Pos.compare_spec m m') as [-> | |]; try discriminate H; reflexivity.
Qed.

Lemma eqb_same_string (v w : number) :
  (v =? w)%float = true → Number_toString v = Number_toString w.
Proof.
  intros H. destruct (eqb_cases v w H) as [-> | (s & t & Ev & Ew)]; [reflexivity |].
  by rewrite (Number_toString_zero v s Ev), (Number_toString_zero w t Ew).
Qed.

Lemma strict_eq_same_key (a b : value) :
  strict_eq a b = true → ToPropertyKey a = ToPropertyKey b.
Proof.
  destruct a as [| | v | s], b as [| | w | t]; unfold strict_eq, ToPropertyKey;
    try (intros H; discriminate H); try reflexivity.
  - apply eqb_same_string.
  - intros H. apply String.eqb_eq in H. by subst.
Qed.

Lemma key_size_le_length (embeddings : list Point) (level : number) (key : string) :
  (key_size embeddings level key <= length embeddings)%nat.
Proof. unfold key_size. apply List.filter_length_le. Qed.

Lemma filter_all_true {A : Type} (f : A → bool) (l : list A) :
  (∀ a, a ∈ l → f a = true) → List.filter f l = l.
Proof.
  induction l as [| a l IH]; intros H; simpl; [reflexivity |].
  rewrite (H a) by set_solver. f_equal. apply IH. intros b Hb. apply H. set_solver.
Qed.

Lemma filter_all_false {A : Type} (f : A → bool) (l : list A) :
  (∀ a, a ∈ l → f a = false) → List.filter f l = [].
Proof.
  induction l as [| a l IH]; intros H; simpl; [reflexivity |].
  rewrite (H a) by set_solver. apply IH. intros b Hb. apply H. set_solver.
Qed.

Lemma filter_filter_absorb {A : Type} (f g : A → bool) (l : list A) :
  (∀ a, a ∈ l → f a = true → g a = true) →
  List.filter f (List.filter g l) = List.filter f l.
Proof.
  induction l as [| a l IH]; intros H; simpl; [reflexivity |].
  assert (IH' : List.filter f (List.filter g l) = List.filter f l).
  { apply IH. intros b Hb. apply H. set_solver. }
  destruct (g a) eqn:Eg; simpl.
  - by rewrite IH'.
  - destruct (f a) eqn:Ef; [| exact IH'].
    rewrite (H a) in Eg by (set_solver || done). discriminate.
Qed.

(** The test of the filter depends on a point only through its key. *)
Lemma retained_same_key (embeddings : list Point) (level : number) (threshold : nat)
    (p q : Point) :
  p ∈ embeddings → q ∈ embeddings → cluster_key level p = cluster_key level q →
  (p ∈ filteredData embeddings level threshold ↔ q ∈ filteredData embeddings level threshold).
Proof.
  intros Hp Hq Hkey. rewrite !filteredData_elem, Hkey. tauto.
Qed.

(** X1. The density filter keeps or drops a cluster as a whole: two points
    of the input whose cluster identifiers at the current level are strictly
    equal ([===]) are both in the filtered list or both out of it. *)
Theorem filteredData_keeps_clusters_whole
    (embeddings : list Point) (level : number) (threshold : nat) (p q : Point) :
  p ∈ embeddings → q ∈ embeddings →
  strict_eq (cluster_at p level) (cluster_at q level) = true →
  (p ∈ filteredData embeddings level threshold ↔ q ∈ filteredData embeddings level threshold).
Proof.
  intros Hp Hq Hsame. apply retained_same_key; try assumption.
  unfold cluster_key. by apply strict_eq_same_key.
Qed.

Lemma filteredData_keeps_clusters_whole_witness :
  Samples.point_at 0 [IdStr "A"] ∈ filteredData Samples.two_pairs 0 2
  ↔ Samples.point_at 1 [IdStr "A"] ∈ filteredData Samples.two_pairs 0 2.
Proof.
  apply (filteredData_keeps_clusters_whole Samples.two_pairs 0 2).
  - apply list_elem_of_In. simpl. auto.
  - apply list_elem_of_In. simpl. auto.
  - reflexivity.
Defined.

Lemma key_size_filteredData (embeddings : list Point) (level : number) (threshold : nat)
    (pt : Point) :
  pt ∈ filteredData embeddings level threshold →
  key_size (filteredData embeddings level threshold) level (cluster_key level pt)
  = key_size embeddings level (cluster_key level pt).
Proof.
  intros Hpt. apply filteredData_elem in Hpt as [Hin Htest].
  unfold key_size, filteredData. f_equal. apply filter_filter_absorb.
  intros q Hq Hkey. apply String.eqb_eq in Hkey. unfold cluster_key in Hkey.
  fold (cluster_key level q) in *. fold (cluster_key level pt) in *.
  rewrite Hkey. exact Htest.
Qed.

(** X2. A cluster that the filter keeps is kept entirely, and is dense: for
    a point of the filtered list, the filtered points with its cluster key are
    as many as the input points with that key, and they are at least
    [densityThreshold] (and at least one). *)
Theorem filteredData_clusters_are_dense
    (embeddings : list Point) (level : number) (threshold : nat) (pt : Point) :
  pt ∈ filteredData embeddings level threshold →
  key_size (filteredData embeddings level threshold) level (cluster_key level pt)
  = key_size embeddings level (cluster_key level pt)
  ∧ (threshold <= key_size (filteredData embeddings level threshold) level
                    (cluster_key level pt))%nat
  ∧ (1 <= key_size (filteredData embeddings level threshold) level
             (cluster_key level pt))%nat.
Proof.
  intros Hpt. rewrite (key_size_filteredData _ _ _ _ Hpt).
  pose proof Hpt as Hpt'. apply filteredData_elem in Hpt' as [Hin Htest].
  rewrite (retained_test level embeddings threshold pt Hin) in Htest.
  apply andb_prop in Htest as [_ Hle]. apply Nat.leb_le in Hle.
  pose proof (key_size_member level embeddings pt Hin). auto.
Qed.

Lemma filteredData_clusters_are_dense_witness :
  key_size (filteredData Samples.two_pairs 0 2) 0
    (cluster_key 0 (Samples.point_at 0 [IdStr "A"]))
  = key_size Samples.two_pairs 0 (cluster_key 0 (Samples.point_at 0 [IdStr "A"]))
  ∧ (2 <= key_size (filteredData Samples.two_pairs 0 2) 0
            (cluster_key 0 (Samples.point_at 0 [IdStr "A"])))%nat
  ∧ (1 <= key_size (filteredData Samples.two_pairs 0 2) 0
            (cluster_key 0 (Samples.point_at 0 [IdStr "A"])))%nat.
Proof.
  apply (filteredData_clusters_are_dense Samples.two_pairs 0 2).
  apply list_elem_of_In. vm_compute. auto.
Defined.

(** X3. Filtering twice is filtering once: the filter, applied with the
    same level and threshold to its own result, removes nothing more (no
    cluster falls under the threshold because other clusters went away). *)
Theorem filteredData_idempotent
    (embeddings : list Point) (level : number) (threshold : nat) :
  filteredData (filteredData embeddings level threshold) level threshold
  = filteredData embeddings level threshold.
Proof.
  set (kept := filteredData embeddings level threshold).
  unfold filteredData at 1. apply filter_all_true. intros pt Hpt.
  fold (cluster_key level pt).
  rewrite (retained_test level kept threshold pt Hpt).
  unfold kept. rewrite (key_size_filteredData _ _ _ _ Hpt).
  apply filteredData_elem in Hpt as [Hin Htest].
  by rewrite <- (retained_test level embeddings threshold pt Hin).
Qed.

(** X4. The thresholds 0 and 1 keep the same points: every point counts
    for its own cluster. *)
Theorem filteredData_threshold_one (embeddings : list Point) (level : number) :
  filteredData embeddings level 1 = filteredData embeddings level 0.
Proof.
  unfold filteredData. apply List.filter_ext_in. intros pt Hpt.
  apply list_elem_of_In in Hpt. fold (cluster_key level pt).
  rewrite !(retained_test level embeddings _ pt Hpt).
  pose proof (key_size_member level embeddings pt Hpt) as Hpos.
  f_equal. destruct (key_size embeddings level (cluster_key level pt)); [lia | reflexivity].
Qed.

(** X5. A threshold above the number of points leaves nothing to plot. *)
Theorem filteredData_threshold_too_high
    (embeddings : list Point) (level : number) (threshold : nat) :
  (length embeddings < threshold)%nat → filteredData embeddings level threshold = [].
Proof.
  intros Hlen. unfold filteredData. apply filter_all_false. intros pt Hpt.
  fold (cluster_key level pt). rewrite (retained_test level embeddings threshold pt Hpt).
  pose proof (key_size_le_length embeddings level (cluster_key level pt)).
  apply andb_false_iff. right. apply Nat.leb_gt. lia.
Qed.

Lemma filteredData_threshold_too_high_witness :
  filteredData Samples.two_pairs 0 5 = [].
Proof.
  apply (filteredData_threshold_too_high Samples.two_pairs 0 5). simpl. lia.
Defined.

(** ** A level that misses every point *)

Lemma key_size_all (embeddings : list Point) (level : number) (key : string) :
  (∀ pt, pt ∈ embeddings → cluster_key level pt = key) →
  key_size embeddings level key = length embeddings.
Proof.
  intros H. unfold key_size. f_equal. apply filter_all_true.
  intros pt Hpt. apply String.eqb_eq. by apply H.
Qed.

(** X6. At a level for which no point has a cluster identifier (an index
    past the end of every [clusters] array, a fraction, NaN) all the points
    are counted together, under the key ["undefined"]: the filter keeps every
    point when the threshold is at most the number of points, and none
    otherwise. *)
Theorem filteredData_without_level
    (embeddings : list Point) (level : number) (threshold : nat) :
  (∀ pt, pt ∈ embeddings → Array_get (clusters pt) level = None) →
  filteredData embeddings level threshold
  = if (threshold <=? length embeddings)%nat then embeddings else [].
Proof.
  intros Hmiss.
  assert (Hkey : ∀ pt, pt ∈ embeddings → cluster_key level pt = "undefined"%string).
  { intros pt Hpt. unfold cluster_key, cluster_at. by rewrite (Hmiss pt Hpt). }
  assert (Htest : ∀ pt, pt ∈ embeddings →
            at_least (object_get (cluster_counts embeddings level)
                        (ToPropertyKey (cluster_at pt level))) threshold
            = (threshold <=? length embeddings)%nat).
  { intros pt Hpt. fold (cluster_key level pt).
    rewrite (retained_test level embeddings threshold pt Hpt), (Hkey pt Hpt).
    rewrite (key_size_all embeddings level "undefined" Hkey). reflexivity. }
  unfold filteredData.
  destruct (threshold <=? length embeddings)%nat.
  - by apply filter_all_true.
  - by apply filter_all_false.
Qed.

Lemma filteredData_without_level_witness :
  filteredData Samples.two_pairs NaN 4
  = if (4 <=? length Samples.two_pairs)%nat then Samples.two_pairs else [].
Proof.
  apply (filteredData_without_level Samples.two_pairs NaN 4).
  intros pt _. reflexivity.
Defined.

(** ** A click and the styling that follows *)

Lemma rendered_setSelectedCluster (props : Props) (st : State) (c : value) :
  rendered props (setSelectedCluster c st) = rendered props st.
Proof. reflexivity. Qed.



(** X8. After a click that hits no marker, every marker has opacity 1 and
    the colours are the [customdata]: each marker is coloured by its cluster
    identifier at the current level. *)
Theorem click_on_empty_space_resets
    (props : Props) (st : State) (i : nat) :
  rendered props st !! i = None →
  marker_opacity (render props (handleClick (click_on (render props st) i) st))
  = map (fun _ => 1%float) (rendered props st)
  ∧ marker_color (render props (handleClick (click_on (render props st) i) st))
    = trace_customdata (render props st).
Proof.
  intros Hi. rewrite (click_past_the_markers props st i Hi).
  unfold handleClick. simpl. unfold markerOpacities, markerColors.
  rewrite rendered_setSelectedCluster. split; apply map_ext; reflexivity.
Qed.

Lemma click_on_empty_space_resets_witness :
  marker_opacity
    (render (with_defaults Samples.two_pairs)
       (handleClick (click_on (render (with_defaults Samples.two_pairs) initial) 7) initial))
  = map (fun _ => 1%float) (rendered (with_defaults Samples.two_pairs) initial)
  ∧ marker_color
      (render (with_defaults Samples.two_pairs)
         (handleClick (click_on (render (with_defaults Samples.two_pairs) initial) 7) initial))
    = trace_customdata (render (with_defaults Samples.two_pairs) initial).
Proof.
  apply (click_on_empty_space_resets (with_defaults Samples.two_pairs) initial 7).
  reflexivity.
Defined.

(** ** Sessions: what decides the level *)

Lemma handleRelayout_complete (props : Props) (event : PlotRelayoutEvent) (st st' : State) :
  complete event = true →
  currentLevel (handleRelayout props event st) = currentLevel (handleRelayout props event st').
Proof.
  unfold complete, handleRelayout.
  destruct (xaxis_range_0 event), (xaxis_range_1 event); try discriminate. reflexivity.
Qed.

Lemma handleRelayout_incomplete (props : Props) (event : PlotRelayoutEvent) (st : State) :
  complete event = false → handleRelayout props event st = st.
Proof.
  unfold complete, handleRelayout.
  destruct (xaxis_range_0 event), (xaxis_range_1 event); try discriminate; reflexivity.
Qed.

Lemma run_from_level (props : Props) (events : list Event) (st : State) :
  currentLevel (foldl (step props) st events)
  = match last_complete (zooms events) with
    | Some e => currentLevel (handleRelayout props e initial)
    | None => currentLevel st
    end.
Proof.
  revert st. induction events as [| event events IH]; intros st; simpl; [reflexivity |].
  rewrite IH. destruct event as [e | i | t]; simpl.
  - destruct (last_complete (zooms events)) as [e' |]; [reflexivity |].
    destruct (complete e) eqn:Ec.
    + by apply handleRelayout_complete.
    + by rewrite handleRelayout_incomplete.
  - destruct (last_complete (zooms events)); [reflexivity |]. apply currentLevel_after_click.
  - destruct (last_complete (zooms events)); reflexivity.
Qed.

(** X9. In a session (relayout events, clicks and slider moves in any
    order) the level is the one computed from the last relayout event that
    carried both bounds, and the initial 0 when there was none: clicks, slider
    moves and relayout events without both bounds do not touch it, and earlier
    zooms leave no trace. *)
Theorem level_of_session (props : Props) (events : list Event) :
  currentLevel (run props events)
  = match last_complete (zooms events) with
    | Some e => currentLevel (handleRelayout props e initial)
    | None => 0%float
    end.
Proof. unfold run. by rewrite run_from_level. Qed.

(** ** Levels are indices *)

Section Integers.
Local Open Scope Z_scope.

(** *** Digits of integers *)

Lemma Zdigits2_bounds (n : Z) : 0 < n → 2 ^ (Zdigits2 n - 1) <= n < 2 ^ Zdigits2 n.
Proof. destruct n as [| p | p]; try lia. intros _. apply digits2_pos_bounds. Qed.

Lemma Zdigits2_shift (n k : Z) : 0 < n → 0 <= k → Zdigits2 (n * 2 ^ k) = Zdigits2 n + k.
Proof.
  intros Hn Hk. assert (Hp : 0 < 2 ^ k) by (apply Z.pow_pos_nonneg; lia).
  destruct n as [| p | p]; try lia.
  destruct (Zpos p * 2 ^ k) as [| q | q] eqn:E; try lia.
  simpl. by apply (digits2_pos_shift p q k).
Qed.

Lemma Zdigits2_div (m k : Z) :
  0 < m → 0 <= k → m mod 2 ^ k = 0 → Zdigits2 (m / 2 ^ k) = Zdigits2 m - k.
Proof.
  intros Hm Hk Hmod. assert (Hp : 0 < 2 ^ k) by (apply Z.pow_pos_nonneg; lia).
  pose proof (Z.div_mod m (2 ^ k) ltac:(lia)) as Hdm. rewrite Hmod, Z.add_0_r in Hdm.
  assert (Hq : 0 < m / 2 ^ k) by nia.
  rewrite Hdm at 2. rewrite Z.mul_comm, Zdigits2_shift by lia. lia.
Qed.

Lemma safe_digits (n : Z) : 0 < n < 2 ^ 53 → 1 <= Zdigits2 n <= 53.
Proof.
  intros [Hlo Hhi]. pose proof (Zdigits2_bounds n Hlo) as [Hd _].
  split; [destruct n; simpl; lia |].
  destruct (Z.le_gt_cases (Zdigits2 n) 53) as [| Hgt]; [done | exfalso].
  assert (2 ^ 53 <= 2 ^ (Zdigits2 n - 1)) by (apply Z.pow_le_mono_r; lia). lia.
Qed.

Lemma fexp_safe (d : Z) : 1 <= d → fexp prec emax d = d - 53.
Proof. unfold fexp, emin, prec, emax. lia. Qed.

(** *** Rounding that loses nothing *)

Lemma round_aux_exact (s : bool) (mx ex : Z) :
  0 < mx → mx mod 2 ^ shift_of mx ex = 0 → ex + shift_of mx ex <= emax - prec →
  binary_round_aux prec emax s mx ex loc_Exact
  = S754_finite s (Z.to_pos (mx / 2 ^ shift_of mx ex)) (ex + shift_of mx ex).
Proof.
  intros Hmx Hmod Hex.
  destruct (binary_round_aux_spec s mx ex loc_Exact ltac:(lia)) as (m1 & _ & Hexact & ->).
  rewrite (Hexact eq_refl Hmod). clear Hexact m1.
  set (k := shift_of mx ex) in *.
  assert (Hk : 0 <= k) by (unfold k, shift_of; lia).
  assert (Hp : 0 < 2 ^ k) by (apply Z.pow_pos_nonneg; lia).
  pose proof (Z.div_mod mx (2 ^ k) ltac:(lia)) as Hdm. rewrite Hmod, Z.add_0_r in Hdm.
  assert (Hq : 0 < mx / 2 ^ k) by nia.
  assert (Hs : shift_of (mx / 2 ^ k) (ex + k) = 0).
  { unfold shift_of at 1. rewrite Zdigits2_div by lia.
    replace (Zdigits2 mx - k + (ex + k)) with (Zdigits2 mx + ex) by lia.
    unfold k, shift_of. lia. }
  rewrite Hs, Z.add_0_r. change (2 ^ 0) with 1. rewrite Z.div_1_r.
  unfold pack. destruct (mx / 2 ^ k) as [| q | q] eqn:Eq; try lia.
  destruct (Z.leb_spec (ex + k) (emax - prec)); [reflexivity | lia].
Qed.

Lemma denotes_digits (mx : positive) (ex n : Z) :
  0 < n → denotes (Zpos mx) ex n → Zpos (digits2_pos mx) + ex = Zdigits2 n.
Proof.
  intros Hn. unfold denotes. destruct (Z.leb_spec 0 ex) as [He | He]; intros H.
  - rewrite H, Zdigits2_shift by lia. reflexivity.
  - change (Zpos (digits2_pos mx)) with (Zdigits2 (Zpos mx)).
    rewrite H, Zdigits2_shift by lia. lia.
Qed.

(** The mantissa of [m * 2^e = n] seen at a smaller exponent [e']. *)
Lemma denotes_at (mx ex n e' : Z) :
  denotes mx ex n → e' <= 0 → e' <= ex → mx * 2 ^ (ex - e') = n * 2 ^ (- e').
Proof.
  unfold denotes. intros H He' Hle. destruct (Z.leb_spec 0 ex) as [He | He].
  - subst n. rewrite <- Z.mul_assoc, <- Z.pow_add_r by lia; f_equal; f_equal; lia.
  - subst mx. rewrite <- Z.mul_assoc, <- Z.pow_add_r by lia; f_equal; f_equal; lia.
Qed.

Lemma shl_align_keeps (mx : positive) (ex ex' : Z) :
  ex <= ex' → shl_align mx ex ex' = (mx, ex).
Proof. unfold shl_align. intros H. destruct (ex' - ex) eqn:E; try reflexivity. lia. Qed.

Lemma shl_align_shifts (mx : positive) (ex ex' : Z) :
  ex' < ex →
  ∃ mz, shl_align mx ex ex' = (mz, ex') ∧ Zpos mz = Zpos mx * 2 ^ (ex - ex').
Proof.
  unfold shl_align. intros H. destruct (ex' - ex) as [| k | k] eqn:E; try lia.
  eexists. split; [reflexivity |].
  fold (shift_pos k mx). rewrite shift_pos_correct.
  change (Z.pow_pos 2 k) with (2 ^ Zpos k). replace (ex - ex') with (Zpos k) by lia. lia.
Qed.

(** Rounding a mantissa that denotes an integer below [2^53] gives the one
    representation of that integer. *)
Lemma binary_round_integer (s : bool) (mx : positive) (ex n : Z) :
  0 < n < 2 ^ 53 → denotes (Zpos mx) ex n →
  binary_round prec emax s mx ex
  = S754_finite s (Z.to_pos (n * 2 ^ (prec - Zdigits2 n))) (Zdigits2 n - prec).
Proof.
  intros Hn Hden. pose proof (safe_digits n Hn) as Hd.
  pose proof (denotes_digits mx ex n ltac:(lia) Hden) as HD.
  unfold binary_round. rewrite HD, (fexp_safe _ (proj1 Hd)).
  set (e' := Zdigits2 n - 53).
  assert (He' : prec - Zdigits2 n = - e') by (unfold e', prec; lia). rewrite He'.
  change (Zdigits2 n - prec) with e'.
  assert (Hp : 0 < 2 ^ (- e')) by (apply Z.pow_pos_nonneg; lia).
  destruct (Z.le_gt_cases ex e') as [Hle | Hgt].
  - (* the mantissa is shifted right, or stays *)
    rewrite shl_align_keeps by exact Hle.
    assert (Hs : shift_of (Zpos mx) ex = e' - ex).
    { unfold shift_of. simpl Zdigits2. rewrite HD, fexp_safe by lia. fold e'. lia. }
    assert (Hmx : Zpos mx = n * 2 ^ (- e') * 2 ^ (e' - ex)).
    { unfold denotes in Hden. destruct (Z.leb_spec 0 ex).
      - assert (ex = 0) by lia. assert (e' = 0) by lia. subst ex. rewrite H1.
        simpl. lia.
      - rewrite Hden, <- Z.mul_assoc, <- Z.pow_add_r by lia. f_equal. f_equal. lia. }
    rewrite round_aux_exact; rewrite ?Hs.
    + rewrite Hmx, Z.div_mul by (apply Z.pow_nonzero; lia). f_equal. lia.
    + lia.
    + rewrite Hmx. apply Z.mod_mul. apply Z.pow_nonzero; lia.
    + unfold emax, prec. lia.
  - (* the mantissa is shifted left *)
    destruct (shl_align_shifts mx ex e' Hgt) as (mz & -> & Hmz).
    rewrite (denotes_at (Zpos mx) ex n e' Hden ltac:(lia) ltac:(lia)) in Hmz.
    assert (Hs : shift_of (Zpos mz) e' = 0).
    { unfold shift_of. rewrite Hmz, Zdigits2_shift by lia.
      replace (Zdigits2 n + - e' + e') with (Zdigits2 n) by lia.
      rewrite fexp_safe by lia. fold e'. lia. }
    rewrite round_aux_exact; rewrite ?Hs; [| lia | apply Z.mod_1_r | unfold emax, prec; lia].
    change (2 ^ 0) with 1. rewrite Z.div_1_r, Z.add_0_r, Hmz. reflexivity.
Qed.

(** *** The representation of an integer *)

Lemma integer_value_denotes (v : number) (p : positive) (e n : Z) :
  Prim2SF v = S754_finite false p e →
  integer_value v = Some n ↔ denotes (Zpos p) e n.
Proof.
  intros E. unfold integer_value, denotes. rewrite E. simpl cond_Zopp.
  destruct (Z.leb_spec 0 e) as [He | He].
  - split; [intros [= <-]; reflexivity | intros ->; reflexivity].
  - assert (Hp : 0 < 2 ^ (- e)) by (apply Z.pow_pos_nonneg; lia).
    pose proof (Z.div_mod (Zpos p) (2 ^ (- e)) ltac:(lia)) as Hdm.
    destruct (Z.eqb_spec (Zpos p mod 2 ^ (- e)) 0) as [Hz | Hnz]; split.
    + intros [= <-]. lia.
    + intros ->. f_equal. apply Z.div_mul. lia.
    + discriminate.
    + intros H. exfalso. apply Hnz. rewrite H. apply Z.mod_mul. lia.
Qed.

Lemma integer_value_sign (v : number) (n : Z) :
  integer_value v = Some n → 0 <= n →
  (n = 0 ∧ ∃ s, Prim2SF v = S754_zero s)
  ∨ (0 < n ∧ ∃ p e, Prim2SF v = S754_finite false p e).
Proof.
  unfold integer_value. destruct (Prim2SF v) as [s | s | | s p e]; try discriminate.
  - intros [= <-] _. left. eauto.
  - intros H Hn. right.
    destruct (Z.leb_spec 0 e) as [He | He].
    + injection H as <-.
      assert (0 < Zpos p * 2 ^ e) by (apply Z.mul_pos_pos; [lia | apply Z.pow_pos_nonneg; lia]).
      destruct s; simpl in *; [lia |]. split; [lia | eauto].
    + assert (Hp : 0 < 2 ^ (- e)) by (apply Z.pow_pos_nonneg; lia).
      pose proof (Z.div_mod (Zpos p) (2 ^ (- e)) ltac:(lia)) as Hdm.
      destruct (Z.eqb_spec (Zpos p mod 2 ^ (- e)) 0) as [Hz | Hnz]; [| discriminate].
      injection H as <-.
      assert (0 < Zpos p / 2 ^ (- e)) by nia.
      destruct s; simpl in *; [lia |]. split; [lia | eauto].
Qed.

Lemma canonical_valid (n : Z) : 0 < n < 2 ^ 53 → valid_binary (canonical n) = true.
Proof.
  intros Hn. pose proof (safe_digits n Hn) as Hd.
  assert (Hp : 0 < 2 ^ (prec - Zdigits2 n)) by (apply Z.pow_pos_nonneg; unfold prec; lia).
  unfold canonical, valid_binary, bounded, canonical_mantissa.
  change (Zpos (digits2_pos ?m)) with (Zdigits2 (Zpos m)).
  rewrite Z2Pos.id by nia. rewrite Zdigits2_shift by (unfold prec; lia).
  replace (Zdigits2 n + (prec - Zdigits2 n) + (Zdigits2 n - prec)) with (Zdigits2 n) by lia.
  rewrite fexp_safe by lia. apply andb_true_intro. split.
  - apply Z.eqb_eq. unfold prec. lia.
  - apply Z.leb_le. unfold prec, emax. lia.
Qed.

Lemma canonical_denotes (n : Z) :
  0 < n < 2 ^ 53 →
  denotes (Zpos (Z.to_pos (n * 2 ^ (prec - Zdigits2 n)))) (Zdigits2 n - prec) n.
Proof.
  intros Hn. pose proof (safe_digits n Hn) as Hd.
  assert (Hp : 0 < 2 ^ (prec - Zdigits2 n)) by (apply Z.pow_pos_nonneg; unfold prec; lia).
  rewrite Z2Pos.id by nia. unfold denotes, prec in *.
  destruct (Z.leb_spec 0 (Zdigits2 n - 53)) as [He | He].
  - replace (53 - Zdigits2 n) with 0 by lia. replace (Zdigits2 n - 53) with 0 by lia.
    simpl. lia.
  - f_equal. f_equal. lia.
Qed.

(** A number that denotes an integer from 1 to [2^53 - 1] is the one
    representation of that integer. *)
Lemma integer_value_unique (v : number) (n : Z) :
  integer_value v = Some n → 0 < n < 2 ^ 53 → Prim2SF v = canonical n.
Proof.
  intros Hv Hn. pose proof (safe_digits n Hn) as Hd.
  destruct (integer_value_sign v n Hv ltac:(lia)) as [[? _] | (_ & p & e & E)]; [lia |].
  pose proof (proj1 (integer_value_denotes v p e n E) Hv) as Hden.
  destruct (valid_finite v false p e E) as [Hcan _].
  apply canonical_fexp in Hcan.
  rewrite (denotes_digits p e n ltac:(lia) Hden), fexp_safe in Hcan by lia.
  pose proof (denotes_at (Zpos p) e n e Hden ltac:(lia) ltac:(lia)) as Hp.
  rewrite Z.sub_diag in Hp. change (2 ^ 0) with 1 in Hp. rewrite Z.mul_1_r in Hp.
  rewrite E. unfold canonical. f_equal.
  - replace (prec - Zdigits2 n) with (- e) by (unfold prec; lia). rewrite <- Hp. reflexivity.
  - unfold prec. lia.
Qed.

Lemma integer_value_canonical (v : number) (n : Z) :
  0 < n < 2 ^ 53 → Prim2SF v = canonical n → integer_value v = Some n.
Proof.
  intros Hn E.
  apply (integer_value_denotes _ (Z.to_pos (n * 2 ^ (prec - Zdigits2 n))) (Zdigits2 n - prec)).
  - exact E.
  - by apply canonical_denotes.
Qed.

(** *** [Math.floor] of a positive number *)

Lemma mantissa_safe (v : number) (s : bool) (p : positive) (e : Z) :
  Prim2SF v = S754_finite s p e → Zpos p < 2 ^ 53.
Proof.
  intros E. destruct (valid_finite v s p e E) as [Hcan _].
  apply canonical_fexp in Hcan. unfold fexp, prec in Hcan.
  pose proof (digits2_pos_bounds p) as [_ Hhi].
  assert (2 ^ Zpos (digits2_pos p) <= 2 ^ 53) by (apply Z.pow_le_mono_r; lia). lia.
Qed.

(** [Math.floor v] for a positive finite [v = p * 2^e] denotes the integer
    part of [p * 2^e]. *)
Lemma Math_floor_value (v : number) (p : positive) (e : Z) :
  Prim2SF v = S754_finite false p e →
  integer_value (Math_floor v)
  = Some (if 0 <=? e then Zpos p * 2 ^ e else Zpos p / 2 ^ (- e)).
Proof.
  intros E. pose proof (mantissa_safe v false p e E) as Hsafe.
  unfold Math_floor. rewrite E.
  destruct (Z.leb_spec 0 e) as [He | He].
  { unfold integer_value. rewrite E. destruct (Z.leb_spec 0 e); [reflexivity | lia]. }
  cbn [andb cond_Zopp].
  rewrite Z.shiftr_div_pow2, Z.shiftl_mul_pow2 by lia.
  set (k := - e). set (q := Zpos p / 2 ^ k).
  assert (Hk : 0 < 2 ^ k) by (apply Z.pow_pos_nonneg; lia).
  assert (Hq : 0 <= q) by (apply Z.div_pos; lia).
  pose proof (Z.div_mod (Zpos p) (2 ^ k) ltac:(lia)) as Hdm. fold q in Hdm.
  pose proof (Z.mod_pos_bound (Zpos p) (2 ^ k) Hk) as Hrem.
  destruct (q * 2 ^ k) as [| p' | p'] eqn:Ep'; [| | nia].
  { assert (q = 0) by nia. subst q. rewrite H. reflexivity. }
  assert (Hq1 : 0 < q < 2 ^ 53) by nia.
  simpl binary_normalize.
  rewrite (binary_round_integer false p' e q Hq1).
  - apply integer_value_canonical; [exact Hq1 |].
    apply Prim2SF_SF2Prim. by apply canonical_valid.
  - unfold denotes. destruct (Z.leb_spec 0 e); [lia |]. symmetry. exact Ep'.
Qed.

(** *** The order of numbers and the order of their values *)

Lemma lex_le_value (p mm : positive) (e em : Z) :
  canonical_mantissa prec emax p e = true →
  canonical_mantissa prec emax mm em = true →
  e < em ∨ (e = em ∧ Zpos p <= Zpos mm) →
  e <= em ∧ Zpos p <= Zpos mm * 2 ^ (em - e).
Proof.
  intros Hp Hm [Hlt | [-> Hle]].
  - split; [lia |]. apply canonical_fexp in Hp, Hm.
    pose proof (digits2_pos_bounds p) as [_ Hhi].
    pose proof (digits2_pos_bounds mm) as [Hlo _].
    set (dp := Zpos (digits2_pos p)) in *. set (dm := Zpos (digits2_pos mm)) in *.
    assert (Hd : dp + e < dm + em).
    { destruct (Z.lt_ge_cases (dp + e) (dm + em)) as [| Hge]; [done | exfalso].
      pose proof (fexp_mono (dm + em) (dp + e) Hge). lia. }
    assert (Hpow : 2 ^ dp <= 2 ^ ((dm - 1) + (em - e))) by (apply Z.pow_le_mono_r; lia).
    rewrite pow2_split in Hpow by (unfold dm; lia).
    assert (0 < 2 ^ (em - e)) by (apply Z.pow_pos_nonneg; lia).
    nia.
  - split; [lia |]. rewrite Z.sub_diag. change (2 ^ 0) with 1. lia.
Qed.

Lemma floor_le_bound (p mm : positive) (e em M : Z) :
  e <= em → Zpos p <= Zpos mm * 2 ^ (em - e) → denotes (Zpos mm) em M →
  0 <= (if 0 <=? e then Zpos p * 2 ^ e else Zpos p / 2 ^ (- e)) <= M.
Proof.
  intros He Hp Hden. destruct (Z.leb_spec 0 e) as [Hpos | Hneg].
  - assert (Hk : 0 < 2 ^ e) by (apply Z.pow_pos_nonneg; lia).
    split; [nia |]. unfold denotes in Hden. destruct (Z.leb_spec 0 em); [| lia].
    subst M.
    assert (Hsplit : 2 ^ em = 2 ^ (em - e) * 2 ^ e)
      by (rewrite <- pow2_split by lia; f_equal; lia).
    rewrite Hsplit. nia.
  - assert (Hk : 0 < 2 ^ (- e)) by (apply Z.pow_pos_nonneg; lia).
    split; [apply Z.div_pos; lia |].
    apply Z.div_le_upper_bound; [exact Hk |].
    rewrite (denotes_at (Zpos mm) em M e Hden ltac:(lia) He) in Hp. lia.
Qed.

Lemma integer_nonneg (m : number) (M : Z) :
  integer_value m = Some M → 0 <= M → (0 <=? m)%float = true ∧ is_finite m = true.
Proof.
  intros Hm HM. rewrite FloatAxioms.leb_spec, is_finite_spec.
  change (Prim2SF 0) with (S754_zero false).
  destruct (integer_value_sign m M Hm HM) as [(_ & s & ->) | (_ & p & e & ->)];
    split; reflexivity.
Qed.

(** The floor of a number between 0 and an integer [M] denotes an integer
    between 0 and [M]. *)
Lemma floor_index (y m : number) (M : Z) :
  integer_value m = Some M → 0 <= M →
  ((∃ s, Prim2SF y = S754_zero s)
   ∨ ∃ p e, Prim2SF y = S754_finite false p e
            ∧ SFleb (S754_finite false p e) (Prim2SF m) = true) →
  ∃ n, integer_value (Math_floor y) = Some n ∧ 0 <= n <= M.
Proof.
  intros Hm HM [[s Ey] | (p & e & Ey & Hle)].
  - exists 0. split; [| lia]. unfold Math_floor. rewrite Ey.
    unfold integer_value. by rewrite Ey.
  - rewrite (Math_floor_value y p e Ey). eexists. split; [reflexivity |].
    destruct (integer_value_sign m M Hm HM) as [(_ & s & Em) | (_ & mm & em & Em)];
      rewrite Em in Hle; [discriminate |].
    apply SFleb_finite_iff in Hle.
    destruct (valid_finite y false p e Ey) as [Hcy _].
    destruct (valid_finite m false mm em Em) as [Hcm _].
    destruct (lex_le_value p mm e em Hcy Hcm Hle) as [He Hp].
    apply (floor_le_bound p mm e em M He Hp).
    by apply (integer_value_denotes m mm em M Em).
Qed.

Lemma Array_get_index {A : Type} (arr : list A) (i : number) (n : Z) :
  integer_value i = Some n → 0 <= n < Z.of_nat (length arr) →
  ∃ a, Array_get arr i = Some a.
Proof.
  intros Hi Hn. unfold Array_get. rewrite Hi.
  destruct (Z.leb_spec 0 n); [| lia]. destruct (Z.ltb_spec n (Z.of_nat (length arr))); [| lia].
  simpl. apply lookup_lt_is_Some. lia.
Qed.

Lemma cluster_at_index (pt : Point) (level : number) (n : Z) :
  integer_value level = Some n → 0 <= n < Z.of_nat (length (clusters pt)) →
  is_cluster_id (cluster_at pt level).
Proof.
  intros Hi Hn. unfold cluster_at.
  destruct (Array_get_index (clusters pt) level n Hi Hn) as [c ->]. by exists c.
Qed.

End Integers.

(** ** The level below a deeper one *)

Section Successor.
Local Open Scope Z_scope.

Lemma shl_align_fst (mx : positive) (ex ez : Z) :
  ez <= ex → Zpos (fst (shl_align mx ex ez)) = Zpos mx * 2 ^ (ex - ez).
Proof.
  intros H. destruct (Z.eq_dec ez ex) as [-> | Hne].
  - rewrite shl_align_keeps by lia. rewrite Z.sub_diag. simpl. lia.
  - destruct (shl_align_shifts mx ex ez ltac:(lia)) as (mz & -> & Hmz). exact Hmz.
Qed.

(** [level + 1] for a level that denotes [n] denotes [n + 1], below [2^53]. *)
Lemma succ_value (v : number) (n : Z) :
  integer_value v = Some n → 0 <= n → n + 1 < 2 ^ 53 →
  integer_value (v + 1)%float = Some (n + 1).
Proof.
  intros Hv Hn Hsafe.
  destruct (integer_value_sign v n Hv Hn) as [(-> & s & E) | (Hpos & p & e & E)].
  - unfold integer_value. rewrite add_spec, E. reflexivity.
  - pose proof (proj1 (integer_value_denotes v p e n E) Hv) as Hden.
    apply integer_value_canonical; [lia |].
    rewrite add_spec, E.
    change (Prim2SF 1) with (S754_finite false 4503599627370496 (-52)).
    unfold SF64add, SFadd. cbn [cond_Zopp].
    set (ez := Z.min e (-52)).
    assert (Hone : denotes (Zpos 4503599627370496) (-52) 1) by reflexivity.
    pose proof (shl_align_fst p e ez ltac:(lia)) as Ha.
    pose proof (shl_align_fst 4503599627370496 (-52) ez ltac:(lia)) as Hb.
    rewrite (denotes_at (Zpos p) e n ez Hden ltac:(lia) ltac:(lia)) in Ha.
    rewrite (denotes_at _ (-52) 1 ez Hone ltac:(lia) ltac:(lia)) in Hb.
    change (Zpos (fst (shl_align p e ez)) + Zpos (fst (shl_align 4503599627370496 (-52) ez)))
      with (Zpos (fst (shl_align p e ez) + fst (shl_align 4503599627370496 (-52) ez))).
    cbn [binary_normalize]. apply binary_round_integer; [lia |].
    unfold denotes. destruct (Z.leb_spec 0 ez); [lia |].
    rewrite Pos2Z.inj_add, Ha, Hb. lia.
Qed.

(** Two numbers that denote the same integer below [2^53] are not in the
    order [<]. *)
Lemma ltb_same_value (v w : number) (n : Z) :
  integer_value v = Some n → integer_value w = Some n → 0 <= n < 2 ^ 53 →
  (v <? w)%float = false.
Proof.
  intros Hv Hw Hn. rewrite FloatAxioms.ltb_spec.
  destruct (Z.eq_dec n 0) as [-> | Hnz].
  - destruct (integer_value_sign v 0 Hv ltac:(lia)) as [(_ & s & ->) | [? _]]; [| lia].
    destruct (integer_value_sign w 0 Hw ltac:(lia)) as [(_ & t & ->) | [? _]]; [| lia].
    reflexivity.
  - rewrite (integer_value_unique v n Hv), (integer_value_unique w n Hw) by lia.
    unfold SFltb. rewrite SFcompare_refl; [reflexivity | discriminate].
Qed.

End Successor.

Lemma zoom_level_index (T x0 x1 m : number) (M : Z) :
  is_finite x0 = true → is_finite x1 = true →
  (0 <? T)%float = true → is_finite T = true →
  integer_value m = Some M → (0 <= M)%Z →
  ∃ n, integer_value (Math_floor (ClusterPlot.relativeZoom T x0 x1 * m)%float) = Some n
       ∧ (0 <= n <= M)%Z.
Proof.
  intros H0 H1 HT HTfin HM HM0.
  destruct (integer_nonneg m M HM HM0) as [Hm Hmfin].
  apply (floor_index _ m M HM HM0). apply scaled_cases; [| exact Hm | exact Hmfin].
  unfold ClusterPlot.relativeZoom. rewrite clamp_agrees.
  apply clamp_cases. by apply zoom_quotient_not_NaN.
Qed.

(** X10. For a relayout event with finite bounds, over data whose total
    range is finite and positive, and a [maxLevel] that is an integer
    [M >= 0]: the level that [handleRelayout] stores is an integer from 0 to
    [M] (not a fraction), and [pt.clusters[level]] is a cluster identifier for
    every point that has more than [M] levels. *)
Theorem level_is_an_index
    (props : Props) (event : PlotRelayoutEvent) (st : State) (x0 x1 : number) (M : Z) :
  xaxis_range_0 event = Some x0 →
  xaxis_range_1 event = Some x1 →
  is_finite x0 = true →
  is_finite x1 = true →
  (0 <? totalRange (embeddings props))%float = true →
  is_finite (totalRange (embeddings props)) = true →
  integer_value (maxLevel props) = Some M →
  (0 <= M)%Z →
  (∃ n, integer_value (currentLevel (handleRelayout props event st)) = Some n
        ∧ (0 <= n <= M)%Z)
  ∧ ∀ pt, (M < Z.of_nat (length (clusters pt)))%Z →
          is_cluster_id (cluster_at pt (currentLevel (handleRelayout props event st))).
Proof.
  intros E0 E1 H0 H1 HT HTfin HM HM0.
  assert (Hlevel : ∃ n, integer_value (currentLevel (handleRelayout props event st)) = Some n
                        ∧ (0 <= n <= M)%Z).
  { unfold handleRelayout. rewrite E0, E1. simpl. by apply zoom_level_index. }
  split; [exact Hlevel |].
  intros pt Hpt. destruct Hlevel as (n & Hn & Hrange).
  apply (cluster_at_index pt _ n Hn). lia.
Qed.

Lemma level_is_an_index_witness :
  (∃ n, integer_value
          (currentLevel (handleRelayout two_levels (Samples.both_bounds 0 1) initial)) = Some n
        ∧ (0 <= n <= 1)%Z)
  ∧ ∀ pt, (1 < Z.of_nat (length (clusters pt)))%Z →
          is_cluster_id
            (cluster_at pt (currentLevel (handleRelayout two_levels (Samples.both_bounds 0 1)
                                            initial))).
Proof.
  apply (level_is_an_index two_levels (Samples.both_bounds 0 1) initial 0 1 1);
    try reflexivity. lia.
Defined.

(** ** The two ends of the zoom scale *)

Section Endpoints.
Local Open Scope Z_scope.

Lemma binary_round_aux_canonical (s : bool) (p : positive) (e : Z) :
  canonical_mantissa prec emax p e = true → e <= emax - prec →
  binary_round_aux prec emax s (Zpos p) e loc_Exact = S754_finite s p e.
Proof.
  intros Hcan He.
  assert (Hs : shift_of (Zpos p) e = 0).
  { unfold shift_of. simpl Zdigits2. rewrite (canonical_fexp p e Hcan). lia. }
  rewrite round_aux_exact; rewrite ?Hs; [| lia | apply Z.mod_1_r | lia].
  change (2 ^ 0) with 1. rewrite Z.div_1_r, Z.add_0_r. reflexivity.
Qed.

Lemma binary_round_canonical (s : bool) (p : positive) (e : Z) :
  canonical_mantissa prec emax p e = true → e <= emax - prec →
  binary_round prec emax s p e = S754_finite s p e.
Proof.
  intros Hcan He. unfold binary_round.
  rewrite (canonical_fexp p e Hcan), shl_align_keeps by lia.
  by apply binary_round_aux_canonical.
Qed.

(** [1 * m] is [m], for every number [m]. *)
Lemma mul_one (m : number) : (1 * m)%float = m.
Proof.
  apply Prim2SF_inj. rewrite mul_spec.
  change (Prim2SF 1) with (S754_finite false 4503599627370496 (-52)).
  destruct (Prim2SF m) as [s | s | | s mm em] eqn:E; try reflexivity.
  destruct (valid_finite m s mm em E) as [Hcan Hem].
  unfold SF64mul, SFmul. cbn [xorb].
  assert (Hmx : Zpos (4503599627370496 * mm) = Zpos mm * 2 ^ 52) by lia.
  assert (Hs : shift_of (Zpos (4503599627370496 * mm)) (-52 + em) = 52).
  { unfold shift_of. rewrite Hmx, Zdigits2_shift by lia. simpl Zdigits2.
    replace (Zpos (digits2_pos mm) + 52 + (-52 + em)) with (Zpos (digits2_pos mm) + em) by lia.
    rewrite (canonical_fexp mm em Hcan). lia. }
  rewrite round_aux_exact; rewrite ?Hs.
  - rewrite Hmx, Z.div_mul by lia. f_equal. lia.
  - lia.
  - rewrite Hmx. apply Z.mod_mul. lia.
  - lia.
Qed.

(** [Math.floor] leaves a number that denotes an integer as it is. *)
Lemma Math_floor_integer (v : number) (n : Z) :
  integer_value v = Some n → Math_floor v = v.
Proof.
  unfold integer_value, Math_floor.
  destruct (Prim2SF v) as [s | s | | s p e] eqn:E; try reflexivity.
  destruct (Z.leb_spec 0 e) as [He | He]; [reflexivity |].
  destruct (Z.eqb_spec (Zpos p mod 2 ^ (- e)) 0) as [Hz | Hnz]; [| discriminate].
  intros _. destruct (valid_finite v s p e E) as [Hcan Hem]. cbv zeta.
  rewrite Z.shiftr_div_pow2, !Z.shiftl_mul_pow2 by lia.
  assert (Hk : 0 < 2 ^ (- e)) by (apply Z.pow_pos_nonneg; lia).
  pose proof (Z.div_mod (Zpos p) (2 ^ (- e)) ltac:(lia)) as Hdm.
  assert (Hq : Zpos p / 2 ^ (- e) * 2 ^ (- e) = Zpos p) by lia.
  rewrite Hq, Z.eqb_refl. simpl negb. rewrite andb_false_r, Hq.
  assert (Hnorm : binary_normalize prec emax (cond_Zopp s (Zpos p)) e s = S754_finite s p e).
  { destruct s; simpl; by apply binary_round_canonical. }
  rewrite Hnorm, <- E. apply SF2Prim_Prim2SF.
Qed.

(** *** Zero or below *)

Lemma pack_at_most_zero (m e : Z) : 0 <= m → at_most_zero (pack true m e) = true.
Proof.
  intros Hm. unfold pack. destruct m as [| p | p]; try lia; [reflexivity |].
  destruct (e <=? emax - prec); reflexivity.
Qed.

Lemma round_aux_at_most_zero (mx ex : Z) (lx : location) :
  0 <= mx → at_most_zero (binary_round_aux prec emax true mx ex lx) = true.
Proof.
  intros Hmx. destruct (binary_round_aux_spec true mx ex lx Hmx) as (m1 & Hm1 & _ & ->).
  apply pack_at_most_zero. apply Z.div_pos.
  - assert (0 <= mx / 2 ^ shift_of mx ex); [| lia].
    apply Z.div_pos; [lia | apply Z.pow_pos_nonneg; [lia | unfold shift_of; lia]].
  - apply Z.pow_pos_nonneg; [lia | unfold shift_of; lia].
Qed.

(** [T - c] for a positive finite [T] and [c >= T]. *)
Lemma sub_at_most_zero (T c : number) (mT : positive) (eT : Z) :
  Prim2SF T = S754_finite false mT eT →
  (T <=? c)%float = true →
  at_most_zero (Prim2SF (T - c)%float) = true.
Proof.
  intros ET. rewrite FloatAxioms.leb_spec, sub_spec, ET.
  destruct (Prim2SF c) as [s | [|] | | [|] mc ec] eqn:Ec; try discriminate; [reflexivity |].
  intros Hle. apply SFleb_finite_iff in Hle.
  destruct (valid_finite T false mT eT ET) as [HcT _].
  destruct (valid_finite c false mc ec Ec) as [Hcc _].
  destruct (lex_le_value mT mc eT ec HcT Hcc Hle) as [He Hm].
  unfold SF64sub, SFsub. cbn [cond_Zopp].
  replace (Z.min eT ec) with eT by lia.
  rewrite (shl_align_fst mT eT eT ltac:(lia)), (shl_align_fst mc ec eT He), Z.sub_diag.
  change (2 ^ 0) with 1. rewrite Z.mul_1_r.
  destruct (Zpos mT - Zpos mc * 2 ^ (ec - eT)) as [| d | d] eqn:Ed; [reflexivity | lia |].
  unfold binary_normalize, binary_round.
  destruct (shl_align d eT _) as [mz ez]. apply round_aux_at_most_zero. lia.
Qed.

Lemma div_at_most_zero (a T : number) (mT : positive) (eT : Z) :
  Prim2SF T = S754_finite false mT eT →
  at_most_zero (Prim2SF a) = true →
  at_most_zero (Prim2SF (a / T)%float) = true.
Proof.
  intros ET. rewrite div_spec, ET.
  destruct (Prim2SF a) as [s | [|] | | [|] ma ea]; try discriminate; try reflexivity.
  intros _. unfold SF64div, SFdiv, SFdiv_core_binary. cbn [xorb].
  set (m' := match _ - _ - _ with Z0 => _ | Zpos _ => _ | Zneg _ => _ end).
  assert (Hm' : 0 <= m').
  { unfold m'. destruct (_ - _ - _) as [| k | k]; try lia. apply Z.shiftl_nonneg. lia. }
  assert (Hq : 0 <= m' / Zpos mT) by (apply Z.div_pos; lia).
  unfold Z.div in Hq.
  destruct (Z.div_eucl m' (Zpos mT)) as [q r]. simpl in Hq.
  by apply round_aux_at_most_zero.
Qed.

Lemma clamp_at_most_zero (q : number) :
  at_most_zero (Prim2SF q) = true → clamp q 0 1 = 0%float.
Proof.
  unfold clamp. rewrite FloatAxioms.leb_spec.
  change (Prim2SF 0) with (S754_zero false).
  destruct (Prim2SF q) as [s | [|] | | [|] m e]; try discriminate; reflexivity.
Qed.

(** A range at least as wide as the data: [relativeZoom] is 0. *)
Lemma zoom_of_full_range (T x0 x1 : number) :
  (0 <? T)%float = true → is_finite T = true →
  (T <=? x1 - x0)%float = true →
  ClusterPlot.relativeZoom T x0 x1 = 0%float.
Proof.
  intros HT HTfin Hwide. destruct (positive_finite T HT HTfin) as (mT & eT & ET).
  unfold ClusterPlot.relativeZoom. rewrite clamp_agrees.
  apply clamp_at_most_zero, (div_at_most_zero _ T mT eT ET).
  by apply (sub_at_most_zero T _ mT eT ET).
Qed.

Lemma zero_mul (m : number) :
  is_finite m = true → ∃ s, Prim2SF (0 * m)%float = S754_zero s.
Proof.
  rewrite is_finite_spec, mul_spec. change (Prim2SF 0) with (S754_zero false).
  destruct (Prim2SF m) as [s | s | | s mm em]; try discriminate; intros _; eexists; reflexivity.
Qed.

(** *** A range that is not finite *)

Lemma zoom_of_unbounded_range (T x0 x1 : number) :
  is_finite T = false → ClusterPlot.relativeZoom T x0 x1 = NaN.
Proof.
  intros HT. rewrite is_finite_spec in HT.
  assert (Hq : ((T - (x1 - x0)) / T)%float = NaN).
  { apply NaN_unique. rewrite div_spec, sub_spec.
    generalize (Prim2SF (x1 - x0)%float). intros c.
    destruct (Prim2SF T) as [s | [|] | | s m e]; try discriminate;
      destruct c as [s' | [|] | | s' m' e']; reflexivity. }
  unfold ClusterPlot.relativeZoom. rewrite Hq. reflexivity.
Qed.

End Endpoints.

(** X11. A relayout event whose two bounds coincide (a range of width
    zero) takes the level to [maxLevel] itself, when [maxLevel] is an integer
    and the total range is finite and positive. *)
Theorem deepest_zoom_reaches_maxLevel
    (props : Props) (event : PlotRelayoutEvent) (st : State) (w : number) (M : Z) :
  xaxis_range_0 event = Some w →
  xaxis_range_1 event = Some w →
  is_finite w = true →
  (0 <? totalRange (embeddings props))%float = true →
  is_finite (totalRange (embeddings props)) = true →
  integer_value (maxLevel props) = Some M →
  currentLevel (handleRelayout props event st) = maxLevel props.
Proof.
  intros E0 E1 Hw HT HTfin HM. unfold handleRelayout. rewrite E0, E1. simpl.
  rewrite (zoom_of_empty_range _ w Hw HT HTfin), mul_one.
  by apply (Math_floor_integer _ M).
Qed.

Lemma deepest_zoom_reaches_maxLevel_witness :
  currentLevel (handleRelayout two_levels (Samples.both_bounds 1 1) initial)
  = maxLevel two_levels.
Proof.
  apply (deepest_zoom_reaches_maxLevel two_levels (Samples.both_bounds 1 1) initial 1 1);
    reflexivity.
Defined.

(** X12. A relayout event whose range is at least as wide as the data
    ([x1 - x0 >= totalRange]) takes the level to 0, when the total range is
    finite and positive and [maxLevel] is finite. *)
Theorem full_range_resets_level
    (props : Props) (event : PlotRelayoutEvent) (st : State) (x0 x1 : number) :
  xaxis_range_0 event = Some x0 →
  xaxis_range_1 event = Some x1 →
  (0 <? totalRange (embeddings props))%float = true →
  is_finite (totalRange (embeddings props)) = true →
  (totalRange (embeddings props) <=? x1 - x0)%float = true →
  is_finite (maxLevel props) = true →
  integer_value (currentLevel (handleRelayout props event st)) = Some 0%Z
  ∧ (currentLevel (handleRelayout props event st) =? 0)%float = true.
Proof.
  intros E0 E1 HT HTfin Hwide Hm. unfold handleRelayout. rewrite E0, E1. simpl.
  rewrite (zoom_of_full_range _ x0 x1 HT HTfin Hwide).
  destruct (zero_mul (maxLevel props) Hm) as [s Es].
  unfold Math_floor, integer_value. rewrite Es.
  split; [by rewrite Es |].
  rewrite FloatAxioms.eqb_spec, Es. reflexivity.
Qed.

Lemma full_range_resets_level_witness :
  integer_value
    (currentLevel (handleRelayout two_levels (Samples.both_bounds (-1) 5)
                     (Samples.at_level 1))) = Some 0%Z
  ∧ (currentLevel (handleRelayout two_levels (Samples.both_bounds (-1) 5)
                     (Samples.at_level 1)) =? 0)%float = true.
Proof.
  apply (full_range_resets_level two_levels (Samples.both_bounds (-1) 5)
           (Samples.at_level 1) (-1) 5); reflexivity.
Defined.

(** X13. When the total range is not a finite number (there are no points:
    the range is then [-Infinity - Infinity]; or a coordinate is NaN or
    infinite), every relayout event that carries both bounds stores NaN as the
    level, whatever the bounds and [maxLevel]. *)
Theorem unbounded_range_level_is_NaN
    (props : Props) (event : PlotRelayoutEvent) (st : State) (x0 x1 : number) :
  xaxis_range_0 event = Some x0 →
  xaxis_range_1 event = Some x1 →
  is_finite (totalRange (embeddings props)) = false →
  currentLevel (handleRelayout props event st) = NaN.
Proof.
  intros E0 E1 HT. unfold handleRelayout. rewrite E0, E1. simpl.
  rewrite (zoom_of_unbounded_range _ x0 x1 HT), NaN_mul. reflexivity.
Qed.

Lemma unbounded_range_level_is_NaN_witness :
  currentLevel (handleRelayout (with_defaults []) (Samples.both_bounds 0 1) initial) = NaN.
Proof.
  apply (unbounded_range_level_is_NaN (with_defaults []) (Samples.both_bounds 0 1)
           initial 0 1); reflexivity.
Defined.

(** ** Sessions over well-formed data *)

Section Sessions.
Variable props : Props.
Variable M : Z.
Hypothesis Hwf : well_formed props M.

Lemma rendered_well_formed (st : State) (pt : Point) :
  pt ∈ rendered props st → (M < Z.of_nat (length (clusters pt)))%Z.
Proof.
  intros Hpt. destruct Hwf as (_ & _ & _ & _ & Hlen). apply Hlen.
  unfold rendered in Hpt. by apply filteredData_elem in Hpt as [Hin _].
Qed.

Lemma rendered_cluster_id (st : State) (pt : Point) :
  index_level M st → pt ∈ rendered props st →
  is_cluster_id (cluster_at pt (currentLevel st)).
Proof.
  intros (n & Hn & Hrange) Hpt. pose proof (rendered_well_formed st pt Hpt).
  apply (cluster_at_index pt _ n Hn). lia.
Qed.

Lemma handleRelayout_selection (event : PlotRelayoutEvent) (st : State) :
  selectedCluster (handleRelayout props event st) = selectedCluster st.
Proof.
  unfold handleRelayout. destruct (xaxis_range_0 event), (xaxis_range_1 event); reflexivity.
Qed.

Lemma step_index_level (st : State) (event : Event) :
  (∀ e, event = Relayout e → finite_bounds e) →
  index_level M st → index_level M (step props st event).
Proof.
  intros Hfin Hst. destruct Hwf as (HM & HM0 & HT & HTfin & _).
  destruct event as [e | i | t]; simpl.
  - destruct (Hfin e eq_refl) as [Hf0 Hf1]. unfold handleRelayout.
    destruct (xaxis_range_0 e) as [x0 |] eqn:E0; [| exact Hst].
    destruct (xaxis_range_1 e) as [x1 |] eqn:E1; [| exact Hst].
    unfold index_level. simpl.
    apply zoom_level_index; auto. lia.
  - unfold index_level. rewrite currentLevel_after_click. exact Hst.
  - exact Hst.
Qed.

Lemma step_selection_ok (st : State) (event : Event) :
  index_level M st → selection_ok st → selection_ok (step props st event).
Proof.
  intros Hlevel Hsel. destruct event as [e | i | t]; simpl.
  - unfold selection_ok. rewrite handleRelayout_selection. exact Hsel.
  - destruct (rendered props st !! i) as [pt |] eqn:Hi.
    + rewrite (click_on_rendered props st i pt Hi). unfold handleClick, selection_ok. simpl.
      destruct (strict_eq _ _); [by left | right].
      apply rendered_cluster_id; [exact Hlevel |]. by apply list_elem_of_lookup_2 in Hi.
    + rewrite (click_past_the_markers props st i Hi). by left.
  - exact Hsel.
Qed.

Lemma run_from_sound (events : list Event) (st : State) :
  finite_zooms events →
  index_level M st → selection_ok st →
  index_level M (foldl (step props) st events) ∧ selection_ok (foldl (step props) st events).
Proof.
  revert st. induction events as [| event events IH]; intros st Hfin Hlevel Hsel; [done |].
  simpl. apply IH.
  - intros e He. apply Hfin. by right.
  - apply step_index_level; [| exact Hlevel]. intros e ->. apply Hfin. by left.
  - by apply step_selection_ok.
Qed.

Lemma markerColor_ok (st : State) (pt : Point) :
  index_level M st → pt ∈ rendered props st → colour_ok (markerColor props st pt).
Proof.
  intros Hlevel Hpt. pose proof (rendered_well_formed st pt Hpt) as Hlen.
  pose proof (rendered_cluster_id st pt Hlevel Hpt) as Hid.
  destruct Hlevel as (n & Hn & Hrange). destruct Hwf as (HM & HM0 & _).
  unfold markerColor.
  destruct (not_nullish (selectedCluster st)
            && negb (strict_eq (cluster_at pt (currentLevel st)) (selectedCluster st)));
    [by left | right].
  destruct (not_nullish (selectedCluster st) && (currentLevel st <? maxLevel props)%float
            && strict_eq (cluster_at pt (currentLevel st)) (selectedCluster st)) eqn:Hdeep;
    [| exact Hid].
  apply andb_prop in Hdeep as [Hdeep _]. apply andb_prop in Hdeep as [_ Hlt].
  assert (Hne : n ≠ M).
  { intros ->. rewrite (ltb_same_value _ _ M Hn HM) in Hlt by lia. discriminate. }
  apply (cluster_at_index pt _ (n + 1)); [| lia].
  apply succ_value; [exact Hn | lia | lia].
Qed.

End Sessions.

(** X14. In a session over well-formed data (an integer [maxLevel = M]
    below [2^53], a finite positive total range, more than [M] cluster
    identifiers per point) whose relayout events carry finite bounds: the
    level is always an integer from 0 to [M], the selection is [null] or a
    cluster identifier, and in the trace on screen every marker has a cluster
    identifier as [customdata] and the gray or a cluster identifier as colour,
    never [undefined]. *)
Theorem session_never_undefined (props : Props) (M : Z) (events : list Event) :
  well_formed props M →
  finite_zooms events →
  index_level M (run props events)
  ∧ selection_ok (run props events)
  ∧ Forall is_cluster_id (trace_customdata (render props (run props events)))
  ∧ Forall colour_ok (marker_color (render props (run props events))).
Proof.
  intros Hwf Hfin.
  assert (Hinit : index_level M initial).
  { exists 0%Z. split; [reflexivity |]. destruct Hwf as (_ & ? & _). lia. }
  destruct (run_from_sound props M Hwf events initial Hfin Hinit ltac:(by left))
    as [Hlevel Hsel].
  split; [exact Hlevel |]. split; [exact Hsel |].
  unfold render, markerColors. simpl. split; apply Forall_fmap, Forall_forall; intros pt Hpt.
  - by apply (rendered_cluster_id props M Hwf).
  - by apply (markerColor_ok props M Hwf).
Qed.

Lemma two_levels_well_formed : well_formed two_levels 1.
Proof.
  unfold well_formed. split; [reflexivity |]. split; [lia |].
  split; [reflexivity |]. split; [reflexivity |].
  intros pt Hpt. unfold two_levels in Hpt. simpl in Hpt.
  repeat (apply elem_of_cons in Hpt as [-> | Hpt]; [simpl; lia |]).
  by apply elem_of_nil in Hpt.
Defined.

Lemma zoom_click_slide_finite : finite_zooms zoom_click_slide.
Proof.
  intros e He. unfold zoom_click_slide in He.
  repeat (apply elem_of_cons in He as [He | He];
          [try discriminate He; injection He as ->; split; intros ? [= <-]; reflexivity |]).
  by apply elem_of_nil in He.
Defined.

Lemma session_never_undefined_witness :
  index_level 1 (run two_levels zoom_click_slide)
  ∧ selection_ok (run two_levels zoom_click_slide)
  ∧ Forall is_cluster_id (trace_customdata (render two_levels (run two_levels zoom_click_slide)))
  ∧ Forall colour_ok (marker_color (render two_levels (run two_levels zoom_click_slide))).
Proof.
  exact (session_never_undefined two_levels 1 zoom_click_slide
           two_levels_well_formed zoom_click_slide_finite).
Defined.

(** ** The extent of the data *)

Section Extent.
Local Open Scope Z_scope.

(** *** The order of the numbers *)

Lemma SFleb_negative_iff (p q : positive) (e f : Z) :
  SFleb (S754_finite true p e) (S754_finite true q f) = true
  ↔ (f < e ∨ (e = f ∧ Zpos q <= Zpos p)).
Proof.
  unfold SFleb, SFcompare. fold (Pos.compare p q).
  destruct (Z.compare_spec e f) as [He | He | He];
    [destruct (Pos.compare_spec p q) as [Hp | Hp | Hp] | |];
    (split; [intros H; try discriminate; lia | intros H; try reflexivity; lia]).
Qed.

Lemma SFleb_trans (a b c : spec_float) :
  SFleb a b = true → SFleb b c = true → SFleb a c = true.
Proof.
  intros H1 H2.
  destruct a as [sa | sa | | sa ma ea], b as [sb | sb | | sb mb eb],
           c as [sc | sc | | sc mc ec];
    try destruct sa; try destruct sb; try destruct sc;
    try reflexivity; try discriminate H1; try discriminate H2.
  - apply SFleb_negative_iff. apply SFleb_negative_iff in H1, H2. lia.
  - apply SFleb_finite_iff. apply SFleb_finite_iff in H1, H2. lia.
Qed.

Lemma SFcompare_swap (a b : spec_float) :
  SFcompare b a = option_map CompOpp (SFcompare a b).
Proof.
  destruct a as [sa | sa | | sa ma ea], b as [sb | sb | | sb mb eb];
    try destruct sa; try destruct sb; try reflexivity.
  - unfold SFcompare. fold (Pos.compare ma mb). fold (Pos.compare mb ma).
    rewrite (Z.compare_antisym ea eb), (Pos.compare_antisym ma mb).
    destruct (ea ?= eb); simpl; try reflexivity; by destruct (ma ?= mb)%positive.
  - unfold SFcompare. fold (Pos.compare ma mb). fold (Pos.compare mb ma).
    rewrite (Z.compare_antisym ea eb), (Pos.compare_antisym ma mb).
    destruct (ea ?= eb); simpl; try reflexivity; by destruct (ma ?= mb)%positive.
Qed.

Lemma leb_trans (a b c : number) :
  (a <=? b)%float = true → (b <=? c)%float = true → (a <=? c)%float = true.
Proof. rewrite !FloatAxioms.leb_spec. apply SFleb_trans. Qed.

Lemma leb_refl (a : number) : isNaN a = false → (a <=? a)%float = true.
Proof.
  rewrite isNaN_spec, FloatAxioms.leb_spec. intros H. unfold SFleb.
  rewrite SFcompare_refl; [reflexivity |]. by destruct (Prim2SF a).
Qed.

Lemma ltb_leb (a b : number) : (a <? b)%float = true → (a <=? b)%float = true.
Proof.
  rewrite FloatAxioms.ltb_spec, FloatAxioms.leb_spec. unfold SFltb, SFleb.
  by destruct (SFcompare (Prim2SF a) (Prim2SF b)) as [[| |] |].
Qed.

Lemma not_ltb_leb (a b : number) :
  isNaN a = false → isNaN b = false → (a <? b)%float = false → (b <=? a)%float = true.
Proof.
  rewrite !isNaN_spec, FloatAxioms.ltb_spec, FloatAxioms.leb_spec. unfold SFltb, SFleb.
  rewrite (SFcompare_swap (Prim2SF a) (Prim2SF b)).
  destruct (Prim2SF a) as [sa | sa | | sa ma ea], (Prim2SF b) as [sb | sb | | sb mb eb];
    try discriminate; intros _ _;
    destruct (SFcompare _ _) as [[| |] |] eqn:E; simpl; try discriminate; try reflexivity.
  all: try (destruct sa; discriminate E); try (destruct sb; discriminate E).
  all: try (destruct sa, sb; discriminate E).
Qed.

Lemma zeros_leb (a b : number) :
  is_neg_zero a = true → is_pos_zero b = true → (a <=? b)%float = true.
Proof.
  rewrite is_neg_zero_spec, is_pos_zero_spec, FloatAxioms.leb_spec.
  destruct (Prim2SF a) as [[|] | | |], (Prim2SF b) as [[|] | | |]; try discriminate; reflexivity.
Qed.

(** *** [Math.max] and [Math.min] of numbers *)

Lemma Math_max_from_bounds (vs : list number) (highest : number) :
  isNaN highest = false → Forall (fun v => isNaN v = false) vs →
  (Math_max_from highest vs = highest ∨ Math_max_from highest vs ∈ vs)
  ∧ (highest <=? Math_max_from highest vs)%float = true
  ∧ Forall (fun v => (v <=? Math_max_from highest vs)%float = true) vs.
Proof.
  revert highest. induction vs as [| v vs IH]; intros highest Hh Hvs.
  { simpl. split; [by left |]. split; [by apply leb_refl | constructor]. }
  apply Forall_cons in Hvs as [Hv Hvs]. simpl. rewrite Hv.
  destruct (is_pos_zero v && is_neg_zero highest) eqn:Hzero;
    [| destruct (highest <? v)%float eqn:Hlt].
  - apply andb_prop in Hzero as [Hp Hn].
    destruct (IH v Hv Hvs) as (Hmem & Hle & Hall).
    split; [right; destruct Hmem as [-> | ?]; [by left | by right] |].
    split; [apply (leb_trans _ v); [by apply zeros_leb | exact Hle] |].
    by constructor.
  - destruct (IH v Hv Hvs) as (Hmem & Hle & Hall).
    split; [right; destruct Hmem as [-> | ?]; [by left | by right] |].
    split; [apply (leb_trans _ v); [by apply ltb_leb | exact Hle] |].
    by constructor.
  - destruct (IH highest Hh Hvs) as (Hmem & Hle & Hall).
    split; [destruct Hmem as [-> | ?]; [by left | right; by right] |].
    split; [exact Hle |].
    constructor; [| exact Hall].
    apply (leb_trans _ highest); [by apply not_ltb_leb | exact Hle].
Qed.

Lemma Math_min_from_bounds (vs : list number) (lowest : number) :
  isNaN lowest = false → Forall (fun v => isNaN v = false) vs →
  (Math_min_from lowest vs = lowest ∨ Math_min_from lowest vs ∈ vs)
  ∧ (Math_min_from lowest vs <=? lowest)%float = true
  ∧ Forall (fun v => (Math_min_from lowest vs <=? v)%float = true) vs.
Proof.
  revert lowest. induction vs as [| v vs IH]; intros lowest Hl Hvs.
  { simpl. split; [by left |]. split; [by apply leb_refl | constructor]. }
  apply Forall_cons in Hvs as [Hv Hvs]. simpl. rewrite Hv.
  destruct (is_neg_zero v && is_pos_zero lowest) eqn:Hzero;
    [| destruct (v <? lowest)%float eqn:Hlt].
  - apply andb_prop in Hzero as [Hn Hp].
    destruct (IH v Hv Hvs) as (Hmem & Hle & Hall).
    split; [right; destruct Hmem as [-> | ?]; [by left | by right] |].
    split; [apply (leb_trans _ v); [exact Hle | by apply zeros_leb] |].
    by constructor.
  - destruct (IH v Hv Hvs) as (Hmem & Hle & Hall).
    split; [right; destruct Hmem as [-> | ?]; [by left | by right] |].
    split; [apply (leb_trans _ v); [exact Hle | by apply ltb_leb] |].
    by constructor.
  - destruct (IH lowest Hl Hvs) as (Hmem & Hle & Hall).
    split; [destruct Hmem as [-> | ?]; [by left | right; by right] |].
    split; [exact Hle |].
    constructor; [| exact Hall].
    apply (leb_trans _ lowest); [exact Hle | by apply not_ltb_leb].
Qed.

Lemma finite_above_neg_infinity (v : number) :
  is_finite v = true → (neg_infinity <? v)%float = true.
Proof.
  rewrite FloatAxioms.ltb_spec, is_finite_spec.
  change (Prim2SF neg_infinity) with (S754_infinity true).
  by destruct (Prim2SF v) as [[|] | [|] | | [|] m e].
Qed.

Lemma finite_below_infinity (v : number) :
  is_finite v = true → (v <? infinity)%float = true.
Proof.
  rewrite FloatAxioms.ltb_spec, is_finite_spec.
  change (Prim2SF infinity) with (S754_infinity false).
  by destruct (Prim2SF v) as [[|] | [|] | | [|] m e].
Qed.

Lemma Forall_not_NaN (vs : list number) :
  Forall (fun v => is_finite v = true) vs → Forall (fun v => isNaN v = false) vs.
Proof.
  intros H. eapply Forall_impl; [exact H |]. intros v. apply finite_not_NaN.
Qed.

(** The maximum of a non-empty list of finite numbers is one of them, and
    none is larger. *)
Lemma Math_max_bounds (v : number) (vs : list number) :
  Forall (fun u => is_finite u = true) (v :: vs) →
  Math_max (v :: vs) ∈ v :: vs
  ∧ Forall (fun u => (u <=? Math_max (v :: vs))%float = true) (v :: vs).
Proof.
  intros Hall. apply Forall_cons in Hall as [Hv Hvs].
  unfold Math_max. simpl.
  rewrite (finite_not_NaN v Hv), (finite_above_neg_infinity v Hv), andb_false_r.
  destruct (Math_max_from_bounds vs v (finite_not_NaN v Hv) (Forall_not_NaN vs Hvs))
    as (Hmem & Hle & Hbound).
  split; [destruct Hmem as [-> | ?]; [by left | by right] | by constructor].
Qed.

Lemma Math_min_bounds (v : number) (vs : list number) :
  Forall (fun u => is_finite u = true) (v :: vs) →
  Math_min (v :: vs) ∈ v :: vs
  ∧ Forall (fun u => (Math_min (v :: vs) <=? u)%float = true) (v :: vs).
Proof.
  intros Hall. apply Forall_cons in Hall as [Hv Hvs].
  unfold Math_min. simpl.
  rewrite (finite_not_NaN v Hv), (finite_below_infinity v Hv), andb_false_r.
  destruct (Math_min_from_bounds vs v (finite_not_NaN v Hv) (Forall_not_NaN vs Hvs))
    as (Hmem & Hle & Hbound).
  split; [destruct Hmem as [-> | ?]; [by left | by right] | by constructor].
Qed.

(** *** The difference of two ordered numbers *)

Lemma pack_at_least_zero (m e : Z) : 0 <= m → at_least_zero (pack false m e) = true.
Proof.
  intros Hm. unfold pack. destruct m as [| p | p]; try lia; [reflexivity |].
  destruct (e <=? emax - prec); reflexivity.
Qed.

Lemma round_aux_at_least_zero (mx ex : Z) (lx : location) :
  0 <= mx → at_least_zero (binary_round_aux prec emax false mx ex lx) = true.
Proof.
  intros Hmx. destruct (binary_round_aux_spec false mx ex lx Hmx) as (m1 & Hm1 & _ & ->).
  apply pack_at_least_zero. apply Z.div_pos.
  - assert (0 <= mx / 2 ^ shift_of mx ex); [| lia].
    apply Z.div_pos; [lia | apply Z.pow_pos_nonneg; [lia | unfold shift_of; lia]].
  - apply Z.pow_pos_nonneg; [lia | unfold shift_of; lia].
Qed.

Lemma normalize_at_least_zero (m e : Z) :
  0 <= m → at_least_zero (binary_normalize prec emax m e false) = true.
Proof.
  intros Hm. destruct m as [| d | d]; [reflexivity | | lia].
  unfold binary_normalize, binary_round.
  destruct (shl_align d e _) as [mz ez]. apply round_aux_at_least_zero. lia.
Qed.

(** [b - a] for finite [a <= b]. *)
Lemma sub_at_least_zero (a b : number) :
  is_finite a = true → is_finite b = true → (a <=? b)%float = true →
  at_least_zero (Prim2SF (b - a)%float) = true.
Proof.
  rewrite !is_finite_spec, FloatAxioms.leb_spec, sub_spec.
  destruct (Prim2SF a) as [sa | sa | | sa ma ea] eqn:Ea; try discriminate;
    destruct (Prim2SF b) as [sb | sb | | sb mb eb] eqn:Eb; try discriminate; intros _ _ Hle.
  - by destruct sa, sb.
  - destruct sb; [discriminate Hle | reflexivity].
  - destruct sa; [reflexivity | discriminate Hle].
  - destruct (valid_finite a sa ma ea Ea) as [Hca _].
    destruct (valid_finite b sb mb eb Eb) as [Hcb _].
    unfold SF64sub, SFsub. apply normalize_at_least_zero.
    assert (Hpa : 0 < 2 ^ (ea - Z.min eb ea)) by (apply Z.pow_pos_nonneg; lia).
    assert (Hpb : 0 < 2 ^ (eb - Z.min eb ea)) by (apply Z.pow_pos_nonneg; lia).
    rewrite (shl_align_fst mb eb (Z.min eb ea) ltac:(lia)),
            (shl_align_fst ma ea (Z.min eb ea) ltac:(lia)).
    destruct sa, sb; simpl cond_Zopp; try discriminate Hle.
    + apply SFleb_negative_iff in Hle.
      assert (Hlex : eb < ea ∨ (eb = ea ∧ Zpos mb <= Zpos ma)) by lia.
      destruct (lex_le_value mb ma eb ea Hcb Hca Hlex) as [He Hm].
      replace (Z.min eb ea) with eb in * by lia.
      rewrite Z.sub_diag. change (2 ^ 0) with 1. lia.
    + nia.
    + apply SFleb_finite_iff in Hle.
      destruct (lex_le_value ma mb ea eb Hca Hcb Hle) as [He Hm].
      replace (Z.min eb ea) with ea in * by lia.
      rewrite Z.sub_diag. change (2 ^ 0) with 1. lia.
Qed.

Lemma at_least_zero_leb (v : number) :
  at_least_zero (Prim2SF v) = true → (0 <=? v)%float = true.
Proof.
  rewrite FloatAxioms.leb_spec. change (Prim2SF 0) with (S754_zero false).
  by destruct (Prim2SF v) as [[|] | [|] | | [|] m e].
Qed.

End Extent.

(** X15. For data that is not empty and whose x-coordinates are finite
    numbers: [minX] and [maxX] are coordinates of the data, every coordinate
    lies between them, and the total range is a number that is at least 0
    (not NaN and not negative). *)
Theorem x_extent_bounds (embeddings : list Point) :
  embeddings ≠ [] →
  Forall (fun pt => is_finite (x pt) = true) embeddings →
  fst (x_extent embeddings) ∈ map x embeddings
  ∧ snd (x_extent embeddings) ∈ map x embeddings
  ∧ Forall (fun pt => (fst (x_extent embeddings) <=? x pt)%float = true
                      ∧ (x pt <=? snd (x_extent embeddings))%float = true) embeddings
  ∧ (0 <=? totalRange embeddings)%float = true.
Proof.
  intros Hne Hfin. destruct embeddings as [| pt rest]; [done |].
  assert (Hxs : Forall (fun u => is_finite u = true) (x pt :: map x rest)).
  { change (x pt :: map x rest) with (map x (pt :: rest)). by apply Forall_fmap. }
  unfold totalRange, x_extent. cbn [fst snd map].
  destruct (Math_max_bounds _ _ Hxs) as [Hmax_in Hmax].
  destruct (Math_min_bounds _ _ Hxs) as [Hmin_in Hmin].
  split; [exact Hmin_in |]. split; [exact Hmax_in |]. split.
  - change (x pt :: map x rest) with (map x (pt :: rest)) in Hmax, Hmin.
    apply Forall_fmap in Hmax, Hmin.
    apply Forall_forall. intros q Hq.
    rewrite Forall_forall in Hmax, Hmin. split; [by apply Hmin | by apply Hmax].
  - apply at_least_zero_leb, sub_at_least_zero.
    + rewrite Forall_forall in Hxs. by apply Hxs.
    + rewrite Forall_forall in Hxs. by apply Hxs.
    + apply Forall_cons in Hmax as [Hmax _]. apply Forall_cons in Hmin as [Hmin _].
      by apply (leb_trans _ (x pt)).
Qed.

Lemma x_extent_bounds_witness :
  fst (x_extent Samples.two_pairs) ∈ map x Samples.two_pairs
  ∧ snd (x_extent Samples.two_pairs) ∈ map x Samples.two_pairs
  ∧ Forall (fun pt => (fst (x_extent Samples.two_pairs) <=? x pt)%float = true
                      ∧ (x pt <=? snd (x_extent Samples.two_pairs))%float = true)
      Samples.two_pairs
  ∧ (0 <=? totalRange Samples.two_pairs)%float = true.
Proof.
  apply (x_extent_bounds Samples.two_pairs); [discriminate |].
  repeat constructor.
Defined.

(** ** Numbers as cluster identifiers *)

Lemma numeric_start_app (a b : string) :
  numeric_start a = true → numeric_start (a ++ b) = true.
Proof. destruct a as [| c a]; [discriminate | intros H; exact H]. Qed.

Lemma numeric_start_prefix (a : string) (n : nat) :
  numeric_start a = true → numeric_start (substring 0 (S n) a) = true.
Proof. destruct a as [| c a]; [discriminate | intros H; exact H]. Qed.

Lemma decimal_start (z : Z) : numeric_start (decimal z) = true.
Proof.
  unfold decimal. destruct (N.to_uint (Z.to_N z)) as [| d | d | d | d | d | d | d | d | d | d];
    reflexivity.
Qed.

Lemma layout_start (s n : Z) : numeric_start (layout s n) = true.
Proof.
  unfold layout. pose proof (decimal_start s) as Hd.
  destruct ((_ <=? n)%Z && (n <=? 21)%Z); [by apply numeric_start_app |].
  destruct ((0 <? n)%Z && (n <=? 21)%Z) eqn:Hn.
  { apply andb_prop in Hn as [Hn _]. apply Z.ltb_lt in Hn.
    destruct (Z.to_nat n) as [| k] eqn:Ek; [lia |].
    by apply numeric_start_app, numeric_start_prefix. }
  destruct ((-6 <? n)%Z && (n <=? 0)%Z); [reflexivity |].
  destruct (_ =? 1)%Z; [by apply numeric_start_app |].
  by apply numeric_start_app, numeric_start_prefix.
Qed.

(** The string of a number starts as a number does. *)
Lemma Number_toString_start (v : number) : numeric_start (Number_toString v) = true.
Proof.
  unfold Number_toString. destruct (Prim2SF v) as [s | [|] | | [|] m e]; try reflexivity.
  - destruct (shortest_from _ _ _ _ _) as [digits n]. reflexivity.
  - destruct (shortest_from _ _ _ _ _) as [digits n]. apply layout_start.
Qed.

(** No property of [Object.prototype] has such a name. *)
Lemma numeric_start_not_proto (key : string) :
  numeric_start key = true → key ∉ Object_prototype_keys.
Proof.
  intros H Hin. unfold Object_prototype_keys in Hin.
  repeat (apply elem_of_cons in Hin as [-> | Hin]; [discriminate H |]).
  by apply elem_of_nil in Hin.
Qed.

(** X16. When the cluster identifiers at the current level are numbers, the
    table of counts never reads a property of [Object.prototype]: threshold 0
    keeps every point, and for every threshold a point is kept exactly when
    the points filed under its key are at least [densityThreshold]. *)
Theorem numeric_ids_are_counted
    (embeddings : list Point) (level : number) (threshold : nat) :
  (∀ q, q ∈ embeddings → ∃ v, cluster_at q level = Num v) →
  filteredData embeddings level 0 = embeddings
  ∧ ∀ pt, pt ∈ filteredData embeddings level threshold
          ↔ pt ∈ embeddings
            ∧ (threshold <= key_size embeddings level (cluster_key level pt))%nat.
Proof.
  intros Hnum.
  assert (Hkeys : ∀ pt, pt ∈ embeddings → cluster_key level pt ∉ Object_prototype_keys).
  { intros pt Hpt. destruct (Hnum pt Hpt) as [v Hv]. unfold cluster_key. rewrite Hv.
    apply numeric_start_not_proto, Number_toString_start. }
  split; [by apply threshold_zero_keeps_ordinary_keys |].
  intros pt. rewrite filteredData_elem. split.
  - intros [Hin Htest]. split; [exact Hin |].
    rewrite (retained_test level embeddings threshold pt Hin) in Htest.
    apply andb_prop in Htest as [_ Hle]. by apply Nat.leb_le.
  - intros [Hin Hle]. split; [exact Hin |].
    rewrite (retained_test level embeddings threshold pt Hin).
    rewrite bool_decide_eq_false_2 by (by apply Hkeys). simpl. by apply Nat.leb_le.
Qed.

Lemma numeric_ids_are_counted_witness :
  filteredData numbered 0 0 = numbered
  ∧ ∀ pt, pt ∈ filteredData numbered 0 2
          ↔ pt ∈ numbered ∧ (2 <= key_size numbered 0 (cluster_key 0 pt))%nat.
Proof.
  apply (numeric_ids_are_counted numbered 0 2).
  intros q Hq. unfold numbered in Hq.
  repeat (apply elem_of_cons in Hq as [-> | Hq]; [eexists; reflexivity |]).
  by apply elem_of_nil in Hq.
Defined.
